(** * prost: scalar prox functions, the solver loop and the MEX dispatcher

    A shallow embedding of
    - [include/prost/prox/elemop/function_1d.hpp] (the 1D prox functors),
    - [Solver<T>::Initialize] and [Solver<T>::Solve] (solver.cpp),
    - [matlab/+prost/private/prost.cpp] (the MEX entry point and its commands),
    - [include/prost/prox/prox.hpp] (the index range of a prox),
    together with the properties the specification states about them. *)

From Stdlib Require Import ZArith QArith Qminmax Qround Lqa Lia Bool List String.
From Stdlib Require Import Floats DecimalString Sorted Qabs.
Import ListNotations.

Close Scope Q_scope.

Set Implicit Arguments.
Set Warnings "-register-all,-inexact-float".

(* ================================================================== *)
(** * The scalar type [T]

    Every functor of function_1d.hpp is a template over the scalar type [T].
    The operations the bodies use are collected in a class; it is instantiated
    with the exact rationals (idealised arithmetic, used for the algebraic
    statements) and with binary64 (the [double] instantiation, used to run the
    concrete scenarios bit for bit). *)

Class Scalar (T : Type) : Type := {
  s_zero : T;
  s_one  : T;
  s_add  : T -> T -> T;
  s_sub  : T -> T -> T;
  s_mul  : T -> T -> T;
  s_div  : T -> T -> T;
  s_neg  : T -> T;
  s_ltb  : T -> T -> bool;   (* a < b *)
  s_leb  : T -> T -> bool    (* a <= b *)
}.

Declare Scope scalar_scope.
Delimit Scope scalar_scope with sc.
Notation "a <? b"  := (s_ltb a b) : scalar_scope.
Notation "a <=? b" := (s_leb a b) : scalar_scope.
Notation "a >? b"  := (s_ltb b a) : scalar_scope.
Notation "a >=? b" := (s_leb b a) : scalar_scope.
Notation "a + b"   := (s_add a b) : scalar_scope.
Notation "a - b"   := (s_sub a b) : scalar_scope.
Notation "a * b"   := (s_mul a b) : scalar_scope.
Notation "a / b"   := (s_div a b) : scalar_scope.
Notation "- a"     := (s_neg a) : scalar_scope.

Definition Qltb (a b : Q) : bool := negb (Qle_bool b a).

#[export] Instance Scalar_Q : Scalar Q := {|
  s_zero := 0%Q;
  s_one  := 1%Q;
  s_add  := Qplus;
  s_sub  := Qminus;
  s_mul  := Qmult;
  s_div  := Qdiv;
  s_neg  := Qopp;
  s_ltb  := Qltb;
  s_leb  := Qle_bool
|}.

#[export] Instance Scalar_double : Scalar float := {|
  s_zero := 0%float;
  s_one  := 1%float;
  s_add  := PrimFloat.add;
  s_sub  := PrimFloat.sub;
  s_mul  := PrimFloat.mul;
  s_div  := PrimFloat.div;
  s_neg  := PrimFloat.opp;
  s_ltb  := PrimFloat.ltb;
  s_leb  := PrimFloat.leb
|}.

(* ================================================================== *)
(** * function_1d.hpp *)

Module Function1D.
Section Functors.
Context {T : Type} `{Scalar T}.
Open Scope scalar_scope.

(** [Function1DZero::operator()] *)
Definition Function1DZero (x0 tau alpha beta : T) : T := x0.

(** [Function1DAbs::operator()]: soft thresholding at [tau]. *)
Definition Function1DAbs (x0 tau alpha beta : T) : T :=
  if x0 >=? tau then x0 - tau
  else if x0 <=? - tau then x0 + tau
  else s_zero.

(** [Function1DSquare::operator()] *)
Definition Function1DSquare (x0 tau alpha beta : T) : T :=
  x0 / (s_one + tau).

(** [Function1DIndLeq0::operator()] *)
Definition Function1DIndLeq0 (x0 tau alpha beta : T) : T :=
  if x0 >? s_zero then s_zero else x0.

(** [Function1DIndGeq0::operator()] *)
Definition Function1DIndGeq0 (x0 tau alpha beta : T) : T :=
  if x0 <? s_zero then s_zero else x0.

(** [Function1DIndEq0::operator()] *)
Definition Function1DIndEq0 (x0 tau alpha beta : T) : T := s_zero.

(** [Function1DIndBox01::operator()] *)
Definition Function1DIndBox01 (x0 tau alpha beta : T) : T :=
  if x0 >? s_one then s_one
  else if x0 <? s_zero then s_zero
  else x0.

(** [Function1DMaxPos0::operator()] *)
Definition Function1DMaxPos0 (x0 tau alpha beta : T) : T :=
  if x0 >? tau then x0 - tau
  else if x0 <? s_zero then x0
  else s_zero.

(** Modelled from the spec: the Moreau wrapper (class ProxMoreau) computes
    [prox_{tau f*}(v) = v - tau * prox_{f/tau}(v/tau)]; for a 1D functor [f]
    with threshold [lambda] the inner call runs at [lambda / tau]. *)
Definition MoreauFormula (f : T -> T -> T -> T -> T)
           (v tau lambda alpha beta : T) : T :=
  v - tau * f (v / tau) (lambda / tau) alpha beta.
End Functors.
End Function1D.
Import Function1D.


(* ================================================================== *)
(** * Collaborators of the solver and of the MEX layer

    [Problem<T>], [Backend<T>], the factory ([factory.hpp]), the prox and
    linear-operator classes, the CUDA runtime and the MATLAB host are used by
    solver.cpp and prost.cpp through their interfaces only.  They are
    gathered in one class; exceptions thrown by a member are the left
    injection of a sum. *)

Record Exception : Type := MkException { what : string }.

Inductive ConvergenceResult : Type :=
| kConverged
| kStoppedMaxIters
| kStoppedUser.

(** The members of [Solver<T>::Options] that solver.cpp reads.  [int]s are
    kept as [Z]: the only arithmetic on them is [i + 1] with
    [i < max_iters] and [max_iters - 1]. *)
Record Options (T : Type) : Type := MkOptions {
  x0 : list T;
  y0 : list T;
  max_iters : Z;
  num_cback_calls : Z;
  verbose : bool;
  solve_dual_problem : bool
}.

(** MATLAB arrays as far as prost.cpp looks into them.  The entries of a
    numeric array are kept in [T]: the copies between [double] and [real]
    keep the values. *)
Inductive mxArray (T : Type) : Type :=
| mxDoubleMatrix (m n : nat) (pr : list T)
| mxString (s : string)
| mxStructMatrix (fields : list (string * mxArray T))
| mxCell (m n : nat) (cells : list (mxArray T))
| mxFunctionHandle (id : nat).

Arguments mxString {T} s.
Arguments mxFunctionHandle {T} id.

Class Collaborators (T : Type) : Type := {
  (* problem.hpp *)
  Problem : Type;
  Problem_Initialize : Problem -> Exception + Problem;
  Problem_Dualize : Problem -> Problem;
  Problem_nrows : Problem -> nat;
  Problem_ncols : Problem -> nat;
  (* backend/backend.hpp; the backend reads the problem it was given with
     SetProblem and never writes to it.  Backend_Initialize p o b stands for
     b->SetProblem(p); b->SetOptions(o); b->Initialize() *)
  Backend : Type;
  Backend_Initialize : Problem -> Options T -> Backend -> Exception + Backend;
  PerformIteration : Problem -> Backend -> Backend;
  primal_residual : Backend -> T;
  dual_residual : Backend -> T;
  eps_primal : Backend -> T;
  eps_dual : Backend -> T;
  current_solution : Backend -> list T * list T * list T * list T;
  (* the MATLAB host: interrupt flag and workspace *)
  Host : Type;
  utIsInterruptPending : Host -> bool * Host;
  utSetInterruptPending : bool -> Host -> Host;
  SolverIntermCallback : Z -> list T -> list T -> Host -> bool * Host;
  (* factory.hpp *)
  CreateProblem : mxArray T -> nat -> nat -> Exception + Problem;
  CreateBackend : mxArray T -> Exception + Backend;
  CreateSolverOptions : mxArray T -> Exception + Options T;
  (* prox/prox.hpp: Initialize(), size() and the Eval on host vectors, which
     returns the GPU time in milliseconds *)
  Prox : Type;
  CreateProx : mxArray T -> Exception + Prox;
  Prox_Initialize : Prox -> Exception + Prox;
  Prox_size : Prox -> nat;
  Prox_Eval : Prox -> list T -> list T -> T -> Exception + (list T * T);
  (* linop/linearoperator.hpp; the sums are row_sum(row, 1), col_sum(col, 1) *)
  Block : Type;
  CreateBlock : mxArray T -> Exception + Block;
  LinearOperator : Type;
  LinearOperator_Initialize : list Block -> Exception + LinearOperator;
  LinearOperator_nrows : LinearOperator -> nat;
  LinearOperator_ncols : LinearOperator -> nat;
  LinearOperator_Eval : LinearOperator -> list T -> Exception + (list T * T);
  LinearOperator_EvalAdjoint : LinearOperator -> list T -> Exception + (list T * T);
  LinearOperator_row_sum : LinearOperator -> nat -> T;
  LinearOperator_col_sum : LinearOperator -> nat -> T;
  (* cudaSetDevice(id) == cudaSuccess; the casts to size_t and to int *)
  cudaSetDevice_succeeds : Z -> bool;
  to_size_t : T -> nat;
  to_int : T -> Z
}.

(* ================================================================== *)
(** * solver.cpp *)

(** Modelled from the spec: [linspace] (common.hpp) returns [n] points spaced
    linearly over [[a, b]]: the [k]-th point is [a + k * (b - a) / (n - 1)]. *)
Definition linspace (a b : Q) (n : Z) : list Q :=
  map (fun k => a + inject_Z (Z.of_nat k) * (b - a) / inject_Z (n - 1))%Q
      (seq 0 (Z.to_nat n)).

Module Solver.
Section Defs.
Context {T : Type} `{Scalar T} `{Collaborators T}.
Open Scope scalar_scope.

Definition StoppingCallback : Type := Host -> bool * Host.
Definition IntermCallback : Type := Z -> list T -> list T -> Host -> bool * Host.

(** The data members of [Solver<T>]. *)
Record Solver : Type := MkSolver {
  problem_ : Problem;
  backend_ : Backend;
  opts_ : Options T;
  stopping_cb_ : StoppingCallback;
  interm_cb_ : IntermCallback;
  cur_primal_sol_ : list T;
  cur_primal_constr_sol_ : list T;
  cur_dual_sol_ : list T;
  cur_dual_constr_sol_ : list T
}.

(** [Solver(problem, backend)] followed by [SetOptions],
    [SetIntermCallback] and [SetStoppingCallback]: the solution vectors
    start empty. *)
Definition new_Solver (problem : Problem) (backend : Backend)
           (opts : Options T) (interm : IntermCallback)
           (stopping : StoppingCallback) : Solver :=
  MkSolver problem backend opts stopping interm [] [] [] [].

(** [opts_.x0.swap(opts_.y0)] *)
Definition swap_x0_y0 (o : Options T) : Options T :=
  MkOptions (y0 o) (x0 o) (max_iters o) (num_cback_calls o)
            (verbose o) (solve_dual_problem o).

(** [std::vector<T>::resize(n)] *)
Definition resize (v : list T) (n : nat) : list T :=
  firstn n v ++ repeat s_zero (n - List.length v).

(** [Solver<T>::Initialize].  The verbose report goes to [std::cout] only
    and is left out. *)
Definition Initialize (s : Solver) : Exception + Solver :=
  match Problem_Initialize (problem_ s) with
  | inl e =>
      inl (MkException
             (String.append "Failed to initialize the problem. Reason: " (what e)))
  | inr p0 =>
      let p := if solve_dual_problem (opts_ s) then Problem_Dualize p0 else p0 in
      let o := if solve_dual_problem (opts_ s) then swap_x0_y0 (opts_ s)
               else opts_ s in
      match Backend_Initialize p o (backend_ s) with
      | inl e =>
          inl (MkException
                 (String.append "Failed to initialize the backend. Reason: " (what e)))
      | inr b =>
          inr (MkSolver p b o (stopping_cb_ s) (interm_cb_ s)
                 (resize (cur_primal_sol_ s) (Problem_ncols p))
                 (resize (cur_primal_constr_sol_ s) (Problem_nrows p))
                 (resize (cur_dual_sol_ s) (Problem_nrows p))
                 (resize (cur_dual_constr_sol_ s) (Problem_ncols p)))
      end
  end.

(** One invocation of the intermediate callback, as the host sees it. *)
Record IntermCall : Type := MkIntermCall {
  call_iteration : Z;
  call_x : list T;
  call_y : list T
}.

(** What the loop of [Solve] carries from one iteration to the next: the
    solver object, the host, the list [cb_iters], and (ghost) the calls of
    the intermediate callback made so far. *)
Record LoopState : Type := MkLoopState {
  ls_solver : Solver;
  ls_host : Host;
  ls_cb_iters : list Q;
  ls_calls : list IntermCall
}.

(** Where an iteration stands when the two [if]s that may [break] are
    reached: the locals [is_stopped] and [is_converged], the loop state,
    and (ghost) what the intermediate callback returned if it was called. *)
Record IterationEnd : Type := MkIterationEnd {
  is_stopped : bool;
  is_converged : bool;
  interm_returned : option bool;
  state_end : LoopState
}.

Inductive BodyResult : Type :=
| BodyNext (st : LoopState)
| BodyBreak (result : ConvergenceResult) (st : LoopState)
| BodyUndefined.   (* front() / pop_front() on an empty std::list *)

(** The convergence test on the residuals of the backend. *)
Definition residuals_converged (b : Backend) : bool :=
  (primal_residual b <? eps_primal b) && (dual_residual b <? eps_dual b).

(** The test that opens the callback block in iteration [i]. *)
Definition callback_due (o : Options T) (i : Z) (front : Q)
           (is_converged is_stopped : bool) : bool :=
  Qle_bool front (inject_Z i) || is_converged || is_stopped
  || (i =? max_iters o - 1)%Z.

(** The body of the [for] loop for the iteration [i], from
    [PerformIteration] to [cb_iters.pop_front()].  The lines printed when
    [opts_.verbose] is set go to [std::cout] only and are left out. *)
Definition Solve_iteration (i : Z) (st : LoopState) : option IterationEnd :=
  let s := ls_solver st in
  let o := opts_ s in
  let b := PerformIteration (problem_ s) (backend_ s) in
  let is_converged := false in
  let '(is_stopped, h1) := stopping_cb_ s (ls_host st) in
  let is_converged := if residuals_converged b then true else is_converged in
  match ls_cb_iters st with
  | [] => None
  | front :: rest =>
      if callback_due o i front is_converged is_stopped then
        let '(x, Kx, y, Kty) := current_solution b in
        let s' := MkSolver (problem_ s) b o (stopping_cb_ s) (interm_cb_ s)
                           x Kx y Kty in
        if (1 <=? num_cback_calls o)%Z then
          let '(a1, a2) := if solve_dual_problem o then (y, x) else (x, y) in
          let '(r, h2) := interm_cb_ s (i + 1)%Z a1 a2 h1 in
          Some (MkIterationEnd
                  is_stopped (is_converged || r) (Some r)
                  (MkLoopState s' h2 rest
                     (ls_calls st ++ [MkIntermCall (i + 1)%Z a1 a2])))
        else
          Some (MkIterationEnd
                  is_stopped is_converged None
                  (MkLoopState s' h1 rest (ls_calls st)))
      else
        Some (MkIterationEnd
                is_stopped is_converged None
                (MkLoopState
                   (MkSolver (problem_ s) b o (stopping_cb_ s) (interm_cb_ s)
                             (cur_primal_sol_ s) (cur_primal_constr_sol_ s)
                             (cur_dual_sol_ s) (cur_dual_constr_sol_ s))
                   h1 (ls_cb_iters st) (ls_calls st)))
  end.

(** The end of the body: [if(is_stopped) ... break;] and then
    [if(is_converged) ... break;]. *)
Definition Solve_break (e : IterationEnd) : BodyResult :=
  if is_stopped e then BodyBreak kStoppedUser (state_end e)
  else if is_converged e then BodyBreak kConverged (state_end e)
  else BodyNext (state_end e).

Definition Solve_body (i : Z) (st : LoopState) : BodyResult :=
  match Solve_iteration i st with
  | None => BodyUndefined
  | Some e => Solve_break e
  end.

(** [for(int i = 0; i < opts_.max_iters; i++)]: [n] is the number of
    iterations still to run, [i] the loop counter. *)
Fixpoint Solve_loop (n : nat) (i : Z) (st : LoopState)
  : option (ConvergenceResult * LoopState) :=
  match n with
  | O => Some (kStoppedMaxIters, st)
  | S n' =>
      match Solve_body i st with
      | BodyNext st' => Solve_loop n' (i + 1)%Z st'
      | BodyBreak r st' => Some (r, st')
      | BodyUndefined => None
      end
  end.

(** The list [cb_iters] that [Solve] starts with. *)
Definition callback_schedule (o : Options T) : list Q :=
  if (2 <=? num_cback_calls o)%Z
  then linspace 0 (inject_Z (max_iters o - 1)) (num_cback_calls o)
  else [inject_Z 100000000].

(** What [Solve] leaves behind: its return value, the solver object, the
    host and the calls of the intermediate callback. *)
Record SolveOutcome : Type := MkSolveOutcome {
  result : ConvergenceResult;
  solver_after : Solver;
  host_after : Host;
  interm_calls : list IntermCall
}.

(** [Solver<T>::Solve]; [None] stands for undefined behaviour. *)
Definition Solve (s : Solver) (h : Host) : option SolveOutcome :=
  let o := opts_ s in
  match Solve_loop (Z.to_nat (max_iters o)) 0%Z
                   (MkLoopState s h (callback_schedule o) []) with
  | None => None
  | Some (r, st) =>
      let s1 := ls_solver st in
      let s2 :=
        if solve_dual_problem (opts_ s1) then
          MkSolver (Problem_Dualize (problem_ s1)) (backend_ s1)
                   (swap_x0_y0 (opts_ s1)) (stopping_cb_ s1) (interm_cb_ s1)
                   (cur_primal_sol_ s1) (cur_primal_constr_sol_ s1)
                   (cur_dual_sol_ s1) (cur_dual_constr_sol_ s1)
        else s1 in
      Some (MkSolveOutcome r s2 (ls_host st) (ls_calls st))
  end.

(** The accessors at the end of solver.cpp. *)
Definition cur_primal_sol (s : Solver) : list T :=
  if solve_dual_problem (opts_ s) then cur_dual_sol_ s else cur_primal_sol_ s.

Definition cur_dual_sol (s : Solver) : list T :=
  if solve_dual_problem (opts_ s) then cur_primal_sol_ s else cur_dual_sol_ s.

Definition cur_primal_constr_sol (s : Solver) : list T :=
  if solve_dual_problem (opts_ s) then cur_dual_constr_sol_ s
  else cur_primal_constr_sol_ s.

Definition cur_dual_constr_sol (s : Solver) : list T :=
  if solve_dual_problem (opts_ s) then cur_primal_constr_sol_ s
  else cur_dual_constr_sol_ s.
End Defs.
End Solver.

(* ================================================================== *)
(** * matlab/+prost/private/prost.cpp *)

Module Mex.

(** Calls into the CUDA runtime and the MEX API that change the state of the
    device or of the MEX module, in the order they are made. *)
Inductive Event : Type :=
| EvCudaSetDevice (id : Z)
| EvCudaDeviceReset
| EvResetConstMem
| EvMexLock
| EvMexUnlock
| EvSolverRelease
| EvMexErrMsgTxt (msg : string).

(** How a piece of prost.cpp ends: it returns, it throws a
    [prost::Exception], it hands control back to MATLAB through
    [mexErrMsgTxt] (which prints the message, terminates the MEX function and
    never returns to its caller), or its behaviour is undefined. *)
Inductive Res (A : Type) : Type :=
| Normal (a : A)
| Thrown (e : Exception)
| HostError (msg : string)
| Undefined.

Arguments Thrown {A} e.
Arguments HostError {A} msg.
Arguments Undefined {A}.

Section Defs.
Context {T : Type} `{Scalar T} `{Collaborators T}.

Record MexState : Type := MkMexState {
  current_gpu_device : Z;         (* static int current_gpu_device *)
  host : Host;
  trace : list Event
}.

Definition M (A : Type) : Type := MexState -> Res A * MexState.

Definition ret {A} (a : A) : M A := fun st => (Normal a, st).

Definition bind {A B} (c : M A) (k : A -> M B) : M B :=
  fun st =>
    match c st with
    | (Normal a, st') => k a st'
    | (Thrown e, st') => (Thrown e, st')
    | (HostError msg, st') => (HostError msg, st')
    | (Undefined, st') => (Undefined, st')
    end.

Definition throw {A} (msg : string) : M A :=
  fun st => (Thrown (MkException msg), st).

Definition undefined {A} : M A := fun st => (Undefined, st).

(** [try { body } catch(const Exception& e) { handler }] *)
Definition try_catch {A} (body : M A) (handler : Exception -> M A) : M A :=
  fun st =>
    match body st with
    | (Thrown e, st') => handler e st'
    | other => other
    end.

Definition emit (ev : Event) : M unit :=
  fun st => (Normal tt,
             MkMexState (current_gpu_device st) (host st) (trace st ++ [ev])).

(** A call of a collaborator that may throw. *)
Definition call {A} (r : Exception + A) : M A :=
  match r with
  | inl e => fun st => (Thrown e, st)
  | inr a => ret a
  end.

Definition of_option {A} (o : option A) : M A :=
  match o with
  | Some a => ret a
  | None => undefined
  end.
End Defs.

Declare Scope mex_scope.
Delimit Scope mex_scope with mex.
Notation "x <- c ;; k" := (bind c (fun x => k))
  (at level 61, c at next level, right associativity) : mex_scope.
Notation "' pat <- c ;; k" := (bind c (fun x => match x with pat => k end))
  (at level 61, pat pattern, c at next level, right associativity) : mex_scope.
Notation "c ;; k" := (bind c (fun _ => k))
  (at level 61, right associativity) : mex_scope.

Section Commands.
Context {T : Type} `{Scalar T} `{Collaborators T}.
Open Scope mex_scope.

(** ** The MEX API *)

(** [prhs[i]]: reading past the [nrhs] arguments is undefined. *)
Definition prhs_at (prhs : list (mxArray T)) (i : nat) : M (mxArray T) :=
  of_option (nth_error prhs i).

Definition mxGetDimensions (a : mxArray T) : nat * nat :=
  match a with
  | mxDoubleMatrix m n _ => (m, n)
  | mxString s => (1, String.length s)
  | mxStructMatrix _ => (1, 1)
  | mxCell m n _ => (m, n)
  | mxFunctionHandle _ => (1, 1)
  end.

(** [mxGetScalar]: the first element of a non-empty numeric array. *)
Definition mxGetScalar (a : mxArray T) : M T :=
  match a with
  | mxDoubleMatrix _ _ (v :: _) => ret v
  | _ => undefined
  end.

(** [mxGetPr(a)] read as [std::vector<real>(p, p + n)]. *)
Definition read_pr (a : mxArray T) (n : nat) : M (list T) :=
  match a with
  | mxDoubleMatrix _ _ pr =>
      if (n <=? List.length pr)%nat then ret (firstn n pr) else undefined
  | _ => undefined
  end.

Definition mxGetCell (a : mxArray T) (i : nat) : M (mxArray T) :=
  match a with
  | mxCell _ _ cells => of_option (nth_error cells i)
  | _ => undefined
  end.

(** [mxArrayToString] gives a null pointer for anything but a char array;
    the dispatcher passes it to [std::string::compare] unchecked. *)
Definition mxArrayToString (a : mxArray T) : M string :=
  match a with
  | mxString s => ret s
  | _ => undefined
  end.

(** [mxCreateDoubleMatrix(n, 1, mxREAL)] (zero filled) followed by
    [std::copy(v.begin(), v.end(), mxGetPr(.))]: writing more than [n]
    elements runs past the buffer. *)
Definition copy_to_column (v : list T) (n : nat) : M (mxArray T) :=
  if (List.length v <=? n)%nat
  then ret (mxDoubleMatrix n 1 (v ++ repeat s_zero (n - List.length v)))
  else undefined.

(** The state once [mexErrMsgTxt(msg)] was called. *)
Definition reported (msg : string) (st : MexState) : MexState :=
  MkMexState (current_gpu_device st) (host st) (trace st ++ [EvMexErrMsgTxt msg]).

Definition mexErrMsgTxt (msg : string) : M unit :=
  fun st => (HostError msg, reported msg st).

(** ** The CUDA runtime *)

(** [cudaSetDevice(current_gpu_device)]; the value says whether the call
    returned [cudaSuccess]. *)
Definition cudaSetDevice : M bool :=
  fun st =>
    (Normal (cudaSetDevice_succeeds (current_gpu_device st)),
     MkMexState (current_gpu_device st) (host st)
                (trace st ++ [EvCudaSetDevice (current_gpu_device st)])).

Definition cudaDeviceReset : M unit := emit EvCudaDeviceReset.

Definition ResetConstMem : M unit := emit EvResetConstMem.

(** The three statements that open [SolveProblem] and, after the argument
    checks, [EvalLinOp] and [EvalProx]. *)
Definition select_device : M unit :=
  ok <- cudaSetDevice ;;
  cudaDeviceReset ;;
  if ok then ret tt else throw "Invalid CUDA device.".

(** ** The callbacks handed to the solver *)

Definition MexStoppingCallback : Solver.StoppingCallback :=
  fun h =>
    let '(pending, h1) := utIsInterruptPending h in
    if pending then (true, utSetInterruptPending false h1)
    else (false, h1).

(** ** The commands *)

Definition result_string (r : ConvergenceResult) : string :=
  match r with
  | kConverged => "Converged."
  | kStoppedMaxIters => "Reached maximum iterations."
  | kStoppedUser => "Stopped by user."
  end.

(** [solver->Solve()], run on the host of the MEX state. *)
Definition run_Solve (solver : Solver.Solver) : M Solver.SolveOutcome :=
  fun st =>
    match Solver.Solve solver (host st) with
    | None => (Undefined, st)
    | Some out =>
        (Normal out,
         MkMexState (current_gpu_device st) (Solver.host_after out) (trace st))
    end.

Definition fieldnames : list string := ["x"; "y"; "z"; "w"; "result"]%string.

(** [mxCreateStructMatrix(1, 1, 5, fieldnames)] and the five
    [mxSetFieldByNumber] calls. *)
Definition make_struct (names : list string) (values : list (mxArray T))
  : mxArray T :=
  mxStructMatrix (combine names values).

(** [SolveProblem].  The banner printed when [opts.verbose] is set goes to
    [std::cout] only and is left out.  [problem] is the object the solver
    shares, hence read back from the solver after [Solve]. *)
Definition SolveProblem (nlhs : Z) (prhs : list (mxArray T))
  : M (list (mxArray T)) :=
  select_device ;;
  ResetConstMem ;;
  a1 <- prhs_at prhs 1 ;;
  v1 <- mxGetScalar a1 ;;
  let nrows := to_size_t v1 in
  a2 <- prhs_at prhs 2 ;;
  v2 <- mxGetScalar a2 ;;
  let ncols := to_size_t v2 in
  a0 <- prhs_at prhs 0 ;;
  problem <- call (CreateProblem a0 nrows ncols) ;;
  a3 <- prhs_at prhs 3 ;;
  backend <- call (CreateBackend a3) ;;
  a4 <- prhs_at prhs 4 ;;
  opts <- call (CreateSolverOptions a4) ;;
  let solver := Solver.new_Solver problem backend opts
                                  SolverIntermCallback MexStoppingCallback in
  solver <- call (Solver.Initialize solver) ;;
  out <- run_Solve solver ;;
  let solver := Solver.solver_after out in
  let problem := Solver.problem_ solver in
  let result_string := mxString (result_string (Solver.result out)) in
  mex_dual_sol <-
    copy_to_column (Solver.cur_dual_sol solver) (Problem_nrows problem) ;;
  mex_primal_sol <-
    copy_to_column (Solver.cur_primal_sol solver) (Problem_ncols problem) ;;
  mex_primal_constr_sol <-
    copy_to_column (Solver.cur_primal_constr_sol solver) (Problem_nrows problem) ;;
  mex_dual_constr_sol <-
    copy_to_column (Solver.cur_dual_constr_sol solver) (Problem_ncols problem) ;;
  let plhs0 :=
    make_struct fieldnames
                [mex_primal_sol; mex_dual_sol; mex_primal_constr_sol;
                 mex_dual_constr_sol; result_string] in
  emit EvSolverRelease ;;
  ret [plhs0].

Definition newline : string := String (Ascii.ascii_of_nat 10) EmptyString.

(** [operator<<] of a [size_t] into a [stringstream]. *)
Definition show_size_t (n : nat) : string :=
  NilEmpty.string_of_uint (Nat.to_uint n).

(** The loop of [EvalLinOp] that adds one block per cell. *)
Fixpoint add_blocks (cell_linop : mxArray T) (i n : nat) (linop : list Block)
  : M (list Block) :=
  match n with
  | O => ret linop
  | S n' =>
      c <- mxGetCell cell_linop i ;;
      b <- call (CreateBlock c) ;;
      add_blocks cell_linop (S i) n' (linop ++ [b])
  end.

(** [EvalLinOp] *)
Definition EvalLinOp (nlhs : Z) (prhs : list (mxArray T))
  : M (list (mxArray T)) :=
  ResetConstMem ;;
  if negb (List.length prhs =? 3)%nat
  then throw "eval_lin_op: Three inputs required!" else
  if (nlhs <? 3)%Z
  then throw "eval_lin_op: At least three outputs (result, rowsum, colsum) required."
  else
  select_device ;;
  cell_linop <- prhs_at prhs 0 ;;
  let dims_linop := mxGetDimensions cell_linop in
  blocks <- add_blocks cell_linop 0 (fst dims_linop) [] ;;
  a2 <- prhs_at prhs 2 ;;
  v2 <- mxGetScalar a2 ;;
  let transpose := s_ltb s_zero v2 in
  a1 <- prhs_at prhs 1 ;;
  let dims := mxGetDimensions a1 in
  if negb (snd dims =? 1)%nat
  then throw "Right-hand side input to eval_linop should be a n-times-1 vector!"
  else
  linop <- call (LinearOperator_Initialize blocks) ;;
  let nrows := LinearOperator_nrows linop in
  let ncols := LinearOperator_ncols linop in
  rhs <- read_pr a1 (if transpose then nrows else ncols) ;;
  '(res, time) <- call (if transpose then LinearOperator_EvalAdjoint linop rhs
                        else LinearOperator_Eval linop rhs) ;;
  plhs0 <- copy_to_column res (if transpose then ncols else nrows) ;;
  let rowsum := map (fun row => LinearOperator_row_sum linop row) (seq 0 nrows) in
  let colsum := map (fun col => LinearOperator_col_sum linop col) (seq 0 ncols) in
  ret [plhs0;
       mxDoubleMatrix nrows 1 rowsum;
       mxDoubleMatrix ncols 1 colsum;
       mxDoubleMatrix 1 1 [time]].

(** [EvalProx] *)
Definition EvalProx (nlhs : Z) (prhs : list (mxArray T))
  : M (list (mxArray T)) :=
  if (List.length prhs <? 4)%nat
  then throw "eval_prox: At least four inputs required." else
  if (nlhs =? 0)%Z
  then throw "One output (result of prox) required." else
  select_device ;;
  a1 <- prhs_at prhs 1 ;;
  let dims := mxGetDimensions a1 in
  let n := fst dims in
  if negb (snd dims =? 1)%nat
  then throw "Input to prox should be a vector!" else
  a0 <- prhs_at prhs 0 ;;
  prox <- call (CreateProx a0) ;;
  prox <- call (Prox_Initialize prox) ;;
  if negb (Prox_size prox =? n)%nat
  then throw (String.concat ""
                ["Size of input argument ("%string; show_size_t n;
                 ") doesn't match size of prox ("%string;
                 show_size_t (Prox_size prox); ")!"%string; newline])
  else
  h_arg <- read_pr a1 n ;;
  a3 <- prhs_at prhs 3 ;;
  h_tau <- read_pr a3 n ;;
  a2 <- prhs_at prhs 2 ;;
  tau <- mxGetScalar a2 ;;
  '(h_result, milliseconds) <- call (Prox_Eval prox h_arg h_tau tau) ;;
  plhs0 <- copy_to_column h_result n ;;
  ret [plhs0; mxDoubleMatrix 1 1 [milliseconds]].

(** [Init] *)
Definition Init (nlhs : Z) (prhs : list (mxArray T)) : M (list (mxArray T)) :=
  emit EvMexLock ;;
  ret [].

(** [Release] *)
Definition Release (nlhs : Z) (prhs : list (mxArray T)) : M (list (mxArray T)) :=
  emit EvMexUnlock ;;
  cudaDeviceReset ;;
  ret [].

(** [ListGPUs]: queries the devices and prints one line for each. *)
Definition ListGPUs (nlhs : Z) (prhs : list (mxArray T)) : M (list (mxArray T)) :=
  ret [].

(** [SetGPU] *)
Definition SetGPU (nlhs : Z) (prhs : list (mxArray T)) : M (list (mxArray T)) :=
  a0 <- prhs_at prhs 0 ;;
  v <- mxGetScalar a0 ;;
  fun st => (Normal [], MkMexState (to_int v) (host st) (trace st)).

Definition Command : Type := Z -> list (mxArray T) -> M (list (mxArray T)).

(** [cmd_reg], in the order a [std::map<string, .>] is traversed. *)
Definition cmd_reg : list (string * Command) :=
  [ ("eval_linop"%string,    EvalLinOp);
    ("eval_prox"%string,     EvalProx);
    ("init"%string,          Init);
    ("list_gpus"%string,     ListGPUs);
    ("release"%string,       Release);
    ("set_gpu"%string,       SetGPU);
    ("solve_problem"%string, SolveProblem) ].

(** The [for] loop over [cmd_reg]: the first entry whose name equals [cmd]
    is run; the value says whether a command was executed. *)
Fixpoint run_command (reg : list (string * Command)) (cmd : string)
         (nlhs : Z) (args : list (mxArray T))
  : M (bool * list (mxArray T)) :=
  match reg with
  | [] => ret (false, [])
  | (name, f) :: reg' =>
      if String.eqb name cmd
      then (plhs <- f nlhs args ;; ret (true, plhs))
      else run_command reg' cmd nlhs args
  end.

(** The [try] block of [mexFunction]: run the command named [cmd], or throw
    when no entry of [cmd_reg] has that name. *)
Definition dispatch (cmd : string) (nlhs : Z) (args : list (mxArray T))
  : M (list (mxArray T)) :=
  '(executed, plhs) <- run_command cmd_reg cmd nlhs args ;;
  if negb executed
  then throw (String.concat "" ["Unknown command '"%string; cmd; "'."%string])
  else ret plhs.

(** [mexFunction]: [prhs] holds the [nrhs] arguments, the value is what was
    stored in [plhs].  The commands get [nrhs - 1] and [prhs + 1]. *)
Definition mexFunction (nlhs : Z) (prhs : list (mxArray T))
  : M (list (mxArray T)) :=
  (if (List.length prhs =? 0)%nat
   then mexErrMsgTxt "Usage: prost_(command, arg1, arg2, ...);"
   else ret tt) ;;
  a0 <- prhs_at prhs 0 ;;
  cmd <- mxArrayToString a0 ;;
  try_catch
    (dispatch cmd nlhs (tl prhs))
    (fun e =>
       mexErrMsgTxt (what e) ;;
       Release nlhs (tl prhs)).
End Commands.
End Mex.

(* ================================================================== *)
(** * Notions used to state the properties *)

(** The clamp of [v] to the interval [[lo, hi]]. *)
Definition clamp (lo hi v : Q) : Q := Qmax lo (Qmin hi v).

(** Modelled from the spec: [Problem::Dualize] exchanges the roles of the
    primal and the dual side (G and F*, K and -K^T, the two preconditioners),
    so that exchanging twice gives the problem back. *)
Definition Dualize_exchanges {T : Type} `{Collaborators T} : Prop :=
  forall p : Problem, Problem_Dualize (Problem_Dualize p) = p.

(** The entries of [cb_iters] still to come end with one that no iteration
    but the last can pass. *)
Definition schedule_lasts (max : Z) (cb : list Q) : Prop :=
  cb <> [] /\ (inject_Z (max - 2) < last cb 0)%Q.

(** A column of [n] entries that starts with the vector [v]. *)
Definition column_of {T : Type} (n : nat) (v : list T) (a : mxArray T) : Prop :=
  exists pr, a = mxDoubleMatrix n 1 pr
             /\ List.length pr = n
             /\ firstn (List.length v) pr = v.

Module Run.
Section Defs.
Context {T : Type} `{Scalar T} `{Collaborators T}.

(** The loop state in which [Solve] enters its loop. *)
Definition initial (s : Solver.Solver) (h : Host) : Solver.LoopState :=
  Solver.MkLoopState s h (Solver.callback_schedule (Solver.opts_ s)) [].

(** [reaches s h k st]: the first [k] iterations of [Solve] on [s] and [h]
    end without a [break], and leave the loop state [st] for iteration [k]. *)
Inductive reaches (s : Solver.Solver) (h : Host) : nat -> Solver.LoopState -> Prop :=
| reaches_start : reaches s h 0 (initial s h)
| reaches_next : forall k st st',
    reaches s h k st ->
    (Z.of_nat k < max_iters (Solver.opts_ s))%Z ->
    Solver.Solve_body (Z.of_nat k) st = Solver.BodyNext st' ->
    reaches s h (S k) st'.

(** [iteration s h k e]: [Solve] on [s] and [h] runs iteration [k], which
    arrives at the break logic as [e]. *)
Definition iteration (s : Solver.Solver) (h : Host) (k : nat)
           (e : Solver.IterationEnd) : Prop :=
  exists st, reaches s h k st
             /\ (Z.of_nat k < max_iters (Solver.opts_ s))%Z
             /\ Solver.Solve_iteration (Z.of_nat k) st = Some e.
End Defs.
End Run.

(* ================================================================== *)
(** * A scripted world

    A concrete instance of the collaborators over the rationals, on which the
    model runs: the backend reads its residuals from a script, the host
    answers the polls and the callbacks from two scripts. *)

Module Scripted.

Record problem : Type := MkProblem {
  p_nrows : nat;
  p_ncols : nat;
  p_dualized : bool
}.

Definition dualize (p : problem) : problem :=
  MkProblem (p_ncols p) (p_nrows p) (negb (p_dualized p)).

(** The residual pairs (primal, dual) of the iterations to come, the pair of
    the iteration just performed and the sizes of the problem. *)
Record backend : Type := MkBackend {
  b_script : list (Q * Q);
  b_current : Q * Q;
  b_nrows : nat;
  b_ncols : nat
}.

Definition perform (p : problem) (b : backend) : backend :=
  match b_script b with
  | [] => MkBackend [] (b_current b) (p_nrows p) (p_ncols p)
  | r :: rest => MkBackend rest r (p_nrows p) (p_ncols p)
  end.

Definition solution (b : backend) : list Q * list Q * list Q * list Q :=
  (repeat (fst (b_current b)) (b_ncols b), repeat 0%Q (b_nrows b),
   repeat (snd (b_current b)) (b_nrows b), repeat 0%Q (b_ncols b)).

(** The answers to the polls of the interrupt flag and to the calls of the
    intermediate callback that are still to come. *)
Record host : Type := MkHost {
  h_interrupts : list bool;
  h_answers : list bool
}.

Definition poll (h : host) : bool * host :=
  (hd false (h_interrupts h), MkHost (tl (h_interrupts h)) (h_answers h)).

Definition answer (i : Z) (x y : list Q) (h : host) : bool * host :=
  (hd false (h_answers h), MkHost (h_interrupts h) (tl (h_answers h))).

Fixpoint pairs (l : list Q) : list (Q * Q) :=
  match l with
  | a :: b :: l' => (a, b) :: pairs l'
  | _ => []
  end.

Definition size_of (q : Q) : nat := Z.to_nat (Qfloor q).

Definition create_problem (a : mxArray Q) (nrows ncols : nat)
  : Exception + problem :=
  match a with
  | mxCell _ _ _ => inr (MkProblem nrows ncols false)
  | _ => inl (MkException "Problem description is not a cell array.")
  end.

Definition create_backend (a : mxArray Q) : Exception + backend :=
  match a with
  | mxDoubleMatrix _ _ pr => inr (MkBackend (pairs pr) (1%Q, 1%Q) 0 0)
  | _ => inl (MkException "Unknown backend.")
  end.

Definition create_options (a : mxArray Q) : Exception + Options Q :=
  match a with
  | mxDoubleMatrix _ _ [iters; calls; dual] =>
      inr (MkOptions [] [] (Qfloor iters) (Qfloor calls) false
                     (negb (Qle_bool dual 0)))
  | _ => inl (MkException "Malformed options.")
  end.

(** A prox of a given size that projects onto the unit box. *)
Definition create_prox (a : mxArray Q) : Exception + nat :=
  match a with
  | mxDoubleMatrix _ _ [size] => inr (size_of size)
  | _ => inl (MkException "Unknown prox.")
  end.

Definition eval_prox (p : nat) (arg tau_diag : list Q) (tau : Q)
  : Exception + (list Q * Q) :=
  inr (map (fun x => Function1DIndBox01 x tau 0%Q 0%Q) arg, 0%Q).

#[global] Instance world : Collaborators Q := {|
  Problem := problem;
  Problem_Initialize := fun p => inr p;
  Problem_Dualize := dualize;
  Problem_nrows := p_nrows;
  Problem_ncols := p_ncols;
  Backend := backend;
  Backend_Initialize := fun p o b =>
    inr (MkBackend (b_script b) (b_current b) (p_nrows p) (p_ncols p));
  PerformIteration := perform;
  primal_residual := fun b => fst (b_current b);
  dual_residual := fun b => snd (b_current b);
  eps_primal := fun _ => (1 # 100)%Q;
  eps_dual := fun _ => (1 # 100)%Q;
  current_solution := solution;
  Host := host;
  utIsInterruptPending := poll;
  utSetInterruptPending := fun _ h => h;
  SolverIntermCallback := answer;
  CreateProblem := create_problem;
  CreateBackend := create_backend;
  CreateSolverOptions := create_options;
  Prox := nat;
  CreateProx := create_prox;
  Prox_Initialize := fun p => inr p;
  Prox_size := fun p => p;
  Prox_Eval := eval_prox;
  Block := unit;
  CreateBlock := fun _ => inr tt;
  LinearOperator := nat;
  LinearOperator_Initialize := fun bs => inr (List.length bs);
  LinearOperator_nrows := fun n => n;
  LinearOperator_ncols := fun n => n;
  LinearOperator_Eval := fun _ v => inr (v, 0%Q);
  LinearOperator_EvalAdjoint := fun _ v => inr (v, 0%Q);
  LinearOperator_row_sum := fun _ _ => 1%Q;
  LinearOperator_col_sum := fun _ _ => 1%Q;
  cudaSetDevice_succeeds := fun id => (id =? 0)%Z;
  to_size_t := size_of;
  to_int := Qfloor
|}.

(** A solver on an [nrows] x [ncols] problem whose residuals follow
    [script]. *)
Definition solver (nrows ncols : nat) (script : list (Q * Q)) (o : Options Q)
  : Solver.Solver :=
  Solver.new_Solver (MkProblem nrows ncols false)
                    (MkBackend script (1%Q, 1%Q) 0 0) o
                    answer (Mex.MexStoppingCallback (T := Q)).

Definition state0 (h : host) : Mex.MexState := Mex.MkMexState 0%Z h [].

(** Options without warm start: [max_iters], [num_cback_calls] and
    [solve_dual_problem]. *)
Definition options (iters calls : Z) (dual : bool) : Options Q :=
  MkOptions [] [] iters calls false dual.

(** Residuals below and above the tolerances of the scripted backend. *)
Definition small : Q * Q := ((1 # 1000)%Q, (1 # 1000)%Q).
Definition large : Q * Q := (1%Q, 1%Q).

(** A host that does nothing, and one whose user interrupts at once. *)
Definition quiet : host := MkHost [] [].
Definition interrupted : host := MkHost [true] [].

(** Residuals below the tolerances in the first iteration, five iterations
    allowed, no callback. *)
Definition converging : Solver.Solver := solver 2 3 [small] (options 5 0 false).

(** Never converging, two iterations, no callback. *)
Definition silent : Solver.Solver := solver 2 3 [large; large] (options 2 0 false).

(** Never converging, one iteration, [num_cback_calls = 1]. *)
Definition single_call : Solver.Solver := solver 2 3 [large] (options 1 1 false).

(** The dual problem is to be solved, from the warm start x0 = [1],
    y0 = [2, 3]. *)
Definition dual_solver : Solver.Solver :=
  solver 2 3 [small] (MkOptions [1%Q] [2%Q; 3%Q] 5 0 false true).

(** [prost_('eval_prox', prox, [-0.3; 0.5; 1.7], 1, [1; 1; 1])] without the
    command name. *)
Definition eval_prox_args : list (mxArray Q) :=
  [ mxDoubleMatrix 1 1 [3%Q];
    mxDoubleMatrix 3 1 [(- (3 # 10))%Q; (1 # 2)%Q; (17 # 10)%Q];
    mxDoubleMatrix 1 1 [1%Q];
    mxDoubleMatrix 3 1 [1%Q; 1%Q; 1%Q] ].

(** [prost_('solve_problem', problem, 2, 3, backend, options)] without the
    command name: a 2 x 3 problem, residuals [large] then [small], ten
    iterations, one callback, the dual problem solved. *)
Definition solve_problem_args : list (mxArray Q) :=
  [ mxCell 0 0 [];
    mxDoubleMatrix 1 1 [2%Q];
    mxDoubleMatrix 1 1 [3%Q];
    mxDoubleMatrix 2 2 [1%Q; 1%Q; (1 # 1000)%Q; (1 # 1000)%Q];
    mxDoubleMatrix 3 1 [10%Q; 1%Q; 1%Q] ].
End Scripted.

(* ================================================================== *)
(** * The rest of function_1d.hpp *)

Module Function1DMore.
Section Functors.
Context {T : Type} `{Scalar T}.
Open Scope scalar_scope.

(** The [int] literal [2], converted to [T]. *)
Definition s_two : T := s_one + s_one.

(** [abs] and [max] of the CUDA math library, on ordinary values. *)
Definition s_abs (x : T) : T := if x <? s_zero then - x else x.

Definition s_max (a b : T) : T := if a <? b then b else a.

(** [Function1DL0::operator()]: hard thresholding. *)
Definition Function1DL0 (x0 tau alpha beta : T) : T :=
  if x0 * x0 >? s_two * tau then x0 else s_zero.

(** [Function1DHuber::operator()] *)
Definition Function1DHuber (x0 tau alpha beta : T) : T :=
  let result := (x0 / tau) / (s_one + alpha / tau) in
  let result := result / s_max s_one (s_abs result) in
  x0 - tau * result.
End Functors.
End Function1DMore.
Import Function1DMore.

(* ================================================================== *)
(** * prox.hpp: the index range of a prox *)

Module ProxRange.

(** The data members of [Prox<T>]; [size_t] values are kept as [Z] in
    [[0, 2^bits)]. *)
Record Prox : Type := MkProx {
  index_ : Z;
  size_ : Z;
  diagsteps_ : bool
}.

Section Accessors.
(** The width of [size_t]. *)
Variable bits : Z.

Definition well_formed (p : Prox) : Prop :=
  (0 <= index_ p < 2 ^ bits)%Z /\ (0 <= size_ p < 2 ^ bits)%Z.

(** [Prox(const Prox<T>& other)] *)
Definition copy (other : Prox) : Prox :=
  MkProx (index_ other) (size_ other) (diagsteps_ other).

Definition index (p : Prox) : Z := index_ p.
Definition size (p : Prox) : Z := size_ p.
Definition diagsteps (p : Prox) : bool := diagsteps_ p.

(** [end()]: [index_ + size_ - 1] in [size_t] arithmetic. *)
Definition Prox_end (p : Prox) : Z := ((index_ p + size_ p - 1) mod 2 ^ bits)%Z.
End Accessors.
End ProxRange.

(* ================================================================== *)
(** * Notions used to state further properties *)

(** The numbers of the iterations in which the intermediate callback was
    called. *)
Definition call_numbers {T : Type} `{Collaborators T}
           (calls : list (Solver.IntermCall (T := T))) : list Z :=
  map (Solver.call_iteration (T := T)) calls.

(** Call numbers that increase strictly and lie in [[1, k]]. *)
Definition calls_numbered (k : Z) (numbers : list Z) : Prop :=
  StronglySorted Z.lt numbers /\ Forall (fun n => 1 <= n <= k)%Z numbers.

(** The trace once the device was selected and reset. *)
Definition selected {T : Type} `{Collaborators T} (st : Mex.MexState)
  : Mex.MexState :=
  Mex.MkMexState (Mex.current_gpu_device st) (Mex.host st)
    ((Mex.trace st ++ [Mex.EvCudaSetDevice (Mex.current_gpu_device st)])
     ++ [Mex.EvCudaDeviceReset]).

(* ================================================================== *)
(** * Properties of the 1D prox functions *)

Section ScalarFacts.
Open Scope Q_scope.

Lemma Qltb_true (a b : Q) : Qltb a b = true <-> a < b.
Proof.
  unfold Qltb. rewrite negb_true_iff.
  destruct (Qle_bool b a) eqn:E.
  - apply Qle_bool_iff in E. split; [discriminate | intro L; lra].
  - split; [intros _ | reflexivity].
    apply Qnot_le_lt. intro L. apply Qle_bool_iff in L. congruence.
Qed.

Lemma Qltb_false (a b : Q) : Qltb a b = false <-> b <= a.
Proof.
  unfold Qltb. rewrite negb_false_iff. apply Qle_bool_iff.
Qed.

Lemma Qle_bool_false (a b : Q) : Qle_bool a b = false <-> b < a.
Proof.
  split.
  - intro E. apply Qnot_le_lt. intro L. apply Qle_bool_iff in L. congruence.
  - intro L. destruct (Qle_bool a b) eqn:E; [|reflexivity].
    apply Qle_bool_iff in E. lra.
Qed.

Lemma clamp_below (lo hi v : Q) : lo <= hi -> v <= lo -> clamp lo hi v == lo.
Proof.
  intros Hlh Hv. unfold clamp.
  rewrite (Q.min_r hi v) by lra. apply Q.max_l. assumption.
Qed.

Lemma clamp_above (lo hi v : Q) : lo <= hi -> hi <= v -> clamp lo hi v == hi.
Proof.
  intros Hlh Hv. unfold clamp.
  rewrite (Q.min_l hi v) by assumption. apply Q.max_r. assumption.
Qed.

Lemma clamp_inside (lo hi v : Q) : lo <= v -> v <= hi -> clamp lo hi v == v.
Proof.
  intros Hl Hh. unfold clamp.
  rewrite (Q.min_r hi v) by assumption. apply Q.max_r. assumption.
Qed.

(** Dividing both sides by a positive step keeps the order. *)
Lemma Qdiv_le_pos (a b tau : Q) : 0 < tau -> (a / tau <= b / tau <-> a <= b).
Proof.
  intro Ht. split; intro L.
  - setoid_replace a with (a / tau * tau) by (field; lra).
    setoid_replace b with (b / tau * tau) by (field; lra).
    apply Qmult_le_compat_r; lra.
  - unfold Qdiv. apply Qmult_le_compat_r; [assumption|].
    apply Qlt_le_weak, Qinv_lt_0_compat. assumption.
Qed.


End ScalarFacts.



(** C8: for every input [x0], every step size [tau] and all [alpha], [beta],
    [Function1DSquare] returns [x0 / (1 + tau)], in exact arithmetic and in
    binary64; on the argument [[1, 2, 3]] with [tau = 1] the result is
    [[0.5, 1.0, 1.5]]. *)
Theorem Function1DSquare_formula :
  (forall x0 tau alpha beta : Q,
      (Function1DSquare x0 tau alpha beta == x0 / (1 + tau))%Q)
  /\ (forall x0 tau alpha beta : float,
         Function1DSquare x0 tau alpha beta = (x0 / (1 + tau))%float)
  /\ Forall2 Qeq
       (map (fun x => Function1DSquare x 1 0 0)%Q [1%Q; 2%Q; 3%Q])
       [(1 # 2)%Q; 1%Q; (3 # 2)%Q]
  /\ map (fun x => Function1DSquare x 1 0 0)%float [1%float; 2%float; 3%float]
     = [0.5%float; 1%float; 1.5%float].
Proof.
  split; [intros; unfold Function1DSquare; cbn; reflexivity|].
  split; [intros; reflexivity|].
  split; [|vm_compute; reflexivity].
  repeat constructor; vm_compute; reflexivity.
Qed.

Section Indicators.
Open Scope Q_scope.

Lemma IndLeq0_cases (x0 tau alpha beta : Q) :
  (0 < x0 /\ Function1DIndLeq0 x0 tau alpha beta = 0)
  \/ (x0 <= 0 /\ Function1DIndLeq0 x0 tau alpha beta = x0).
Proof.
  unfold Function1DIndLeq0. cbn.
  destruct (Qltb 0 x0) eqn:E.
  - left. split; [apply Qltb_true; assumption | reflexivity].
  - right. split; [apply Qltb_false; assumption | reflexivity].
Qed.

Lemma IndGeq0_cases (x0 tau alpha beta : Q) :
  (x0 < 0 /\ Function1DIndGeq0 x0 tau alpha beta = 0)
  \/ (0 <= x0 /\ Function1DIndGeq0 x0 tau alpha beta = x0).
Proof.
  unfold Function1DIndGeq0. cbn.
  destruct (Qltb x0 0) eqn:E.
  - left. split; [apply Qltb_true; assumption | reflexivity].
  - right. split; [apply Qltb_false; assumption | reflexivity].
Qed.

Lemma IndBox01_cases (x0 tau alpha beta : Q) :
  (1 < x0 /\ Function1DIndBox01 x0 tau alpha beta = 1)
  \/ (x0 < 0 /\ Function1DIndBox01 x0 tau alpha beta = 0)
  \/ (0 <= x0 <= 1 /\ Function1DIndBox01 x0 tau alpha beta = x0).
Proof.
  unfold Function1DIndBox01. cbn.
  destruct (Qltb 1 x0) eqn:E1.
  - left. split; [apply Qltb_true; assumption | reflexivity].
  - apply Qltb_false in E1. right.
    destruct (Qltb x0 0) eqn:E2.
    + left. split; [apply Qltb_true; assumption | reflexivity].
    + apply Qltb_false in E2. right. repeat split; assumption.
Qed.






End Indicators.


(** The same in binary64: every indicator function is idempotent on every
    [double], NaN and the infinities included; scenario S4 runs as stated. *)
Lemma indicators_idempotent_double :
  forall x0 tau tau' alpha beta alpha' beta' : float,
    Function1DIndLeq0 (Function1DIndLeq0 x0 tau alpha beta) tau' alpha' beta'
    = Function1DIndLeq0 x0 tau alpha beta
    /\ Function1DIndGeq0 (Function1DIndGeq0 x0 tau alpha beta) tau' alpha' beta'
       = Function1DIndGeq0 x0 tau alpha beta
    /\ Function1DIndEq0 (Function1DIndEq0 x0 tau alpha beta) tau' alpha' beta'
       = Function1DIndEq0 x0 tau alpha beta
    /\ Function1DIndBox01 (Function1DIndBox01 x0 tau alpha beta) tau' alpha' beta'
       = Function1DIndBox01 x0 tau alpha beta.
Proof.
  intros x0 tau tau' alpha beta alpha' beta'.
  unfold Function1DIndLeq0, Function1DIndGeq0, Function1DIndEq0,
    Function1DIndBox01. cbn.
  repeat split.
  - destruct (PrimFloat.ltb 0 x0) eqn:E; [reflexivity | rewrite E; reflexivity].
  - destruct (PrimFloat.ltb x0 0) eqn:E; [reflexivity | rewrite E; reflexivity].
  - destruct (PrimFloat.ltb 1 x0) eqn:E1; [reflexivity|].
    destruct (PrimFloat.ltb x0 0) eqn:E2; [reflexivity|].
    rewrite E1, E2. reflexivity.
Qed.

(** Comparisons of binary64 values that are not NaN are total. *)
Lemma SFltb_false_SFleb (a b : spec_float) :
  a <> S754_nan -> b <> S754_nan -> SFltb a b = false -> SFleb b a = true.
Proof.
  intros Ha Hb. unfold SFltb, SFleb.
  destruct a as [sa|sa| |sa ma ea], b as [sb|sb| |sb mb eb];
    try contradiction; cbn;
    try (destruct sa; try destruct sb; cbn; congruence);
    try (destruct sb; cbn; congruence).
  destruct sa, sb; cbn; try congruence;
    rewrite (Z.compare_antisym ea eb);
    (destruct (ea ?= eb)%Z; cbn; try congruence);
    assert (Hc : Pos.compare_cont Eq mb ma = CompOpp (Pos.compare_cont Eq ma mb))
      by (rewrite Pos.compare_cont_antisym; reflexivity);
    rewrite Hc; destruct (Pos.compare_cont Eq ma mb); cbn; congruence.
Qed.

Lemma is_nan_false (x : float) : PrimFloat.is_nan x = false -> Prim2SF x <> S754_nan.
Proof.
  intros N E. unfold PrimFloat.is_nan in N.
  rewrite FloatAxioms.eqb_spec, E in N. discriminate N.
Qed.

Lemma ltb_false_leb (x y : float) :
  PrimFloat.is_nan x = false -> PrimFloat.is_nan y = false ->
  PrimFloat.ltb x y = false -> PrimFloat.leb y x = true.
Proof.
  intros Nx Ny L.
  rewrite FloatAxioms.ltb_spec in L. rewrite FloatAxioms.leb_spec.
  apply SFltb_false_SFleb; auto using is_nan_false.
Qed.

(** In binary64 the output of every indicator function is feasible as soon
    as the input is not NaN (a NaN is handed through by the comparisons). *)
Lemma indicators_feasible_double :
  forall x0 tau alpha beta : float,
    PrimFloat.is_nan x0 = false ->
    PrimFloat.leb (Function1DIndLeq0 x0 tau alpha beta) 0 = true
    /\ PrimFloat.leb 0 (Function1DIndGeq0 x0 tau alpha beta) = true
    /\ Function1DIndEq0 x0 tau alpha beta = 0%float
    /\ PrimFloat.leb 0 (Function1DIndBox01 x0 tau alpha beta) = true
    /\ PrimFloat.leb (Function1DIndBox01 x0 tau alpha beta) 1 = true.
Proof.
  intros x0 tau alpha beta N.
  unfold Function1DIndLeq0, Function1DIndGeq0, Function1DIndEq0,
    Function1DIndBox01. cbn.
  repeat split.
  - destruct (PrimFloat.ltb 0 x0) eqn:E; [reflexivity|].
    apply ltb_false_leb; [reflexivity | exact N | exact E].
  - destruct (PrimFloat.ltb x0 0) eqn:E; [reflexivity|].
    apply ltb_false_leb; [exact N | reflexivity | exact E].
  - destruct (PrimFloat.ltb 1 x0) eqn:E1; [reflexivity|].
    destruct (PrimFloat.ltb x0 0) eqn:E2; [reflexivity|].
    apply ltb_false_leb; [exact N | reflexivity | exact E2].
  - destruct (PrimFloat.ltb 1 x0) eqn:E1; [reflexivity|].
    destruct (PrimFloat.ltb x0 0) eqn:E2; [reflexivity|].
    apply ltb_false_leb; [reflexivity | exact N | exact E1].
Qed.

Example box_indicator_scenario :
  map (fun x => Function1DIndBox01 x 1 0 0)%float
      [(-0.3)%float; 0.5%float; 1.7%float]
  = [0%float; 0.5%float; 1%float].
Proof. vm_compute. reflexivity. Qed.

(* ================================================================== *)
(** * Properties of the solver loop *)

Module SolverFacts.
Import Solver Run.

(** Opens the definition of [Solve_iteration] in a hypothesis
    [Hit : Solve_iteration i st = Some e], one goal for each path through
    the body. *)
Ltac open_iteration Hit :=
  unfold Solve_iteration in Hit; cbv zeta in Hit;
  match type of Hit with
  | context [stopping_cb_ ?s ?h] =>
      let stp := fresh "stp" in
      let h1 := fresh "h1" in
      destruct (stopping_cb_ s h) as [stp h1] eqn:?
  end;
  match type of Hit with
  | context [ls_cb_iters ?st] =>
      let front := fresh "front" in
      let rest := fresh "rest" in
      destruct (ls_cb_iters st) as [|front rest] eqn:?; [discriminate Hit|]
  end;
  match type of Hit with
  | context [callback_due ?o ?i ?f ?c ?p] =>
      destruct (callback_due o i f c p) eqn:?
  end;
  [ match type of Hit with
    | context [current_solution ?b] =>
        let x := fresh "x" in
        let Kx := fresh "Kx" in
        let y := fresh "y" in
        let Kty := fresh "Kty" in
        destruct (current_solution b) as [[[x Kx] y] Kty] eqn:?
    end;
    match type of Hit with
    | context [(1 <=? ?n)%Z] => destruct (1 <=? n)%Z eqn:?
    end;
    [ match type of Hit with
      | context [solve_dual_problem ?o] =>
          destruct (solve_dual_problem o) eqn:?
      end;
      cbv beta iota zeta in Hit;
      match type of Hit with
      | context [interm_cb_ ?s ?i ?a1 ?a2 ?h] =>
          let r := fresh "r" in
          let h2 := fresh "h2" in
          destruct (interm_cb_ s i a1 a2 h) as [r h2] eqn:?
      end
    | ]
  | ];
  injection Hit as <-; cbn [is_stopped is_converged interm_returned state_end
                            ls_solver ls_host ls_cb_iters ls_calls
                            problem_ backend_ opts_ stopping_cb_ interm_cb_].

Section Facts.
Context {T : Type} `{Scalar T} `{Collaborators T}.

(** An iteration leaves the problem, the options and the callbacks of the
    solver as they are. *)
Lemma Solve_iteration_frame (i : Z) (st : LoopState) (e : IterationEnd) :
  Solve_iteration i st = Some e ->
  problem_ (ls_solver (state_end e)) = problem_ (ls_solver st)
  /\ opts_ (ls_solver (state_end e)) = opts_ (ls_solver st)
  /\ stopping_cb_ (ls_solver (state_end e)) = stopping_cb_ (ls_solver st)
  /\ interm_cb_ (ls_solver (state_end e)) = interm_cb_ (ls_solver st).
Proof.
  intro Hit. open_iteration Hit; repeat split; reflexivity.
Qed.

(** [is_stopped] is the answer of the stopping callback. *)
Lemma Solve_iteration_stopped (i : Z) (st : LoopState) (e : IterationEnd) :
  Solve_iteration i st = Some e ->
  is_stopped e = fst (stopping_cb_ (ls_solver st) (ls_host st)).
Proof.
  intro Hit. open_iteration Hit; reflexivity.
Qed.

(** [is_converged] is the residual test, joined with the answer of the
    intermediate callback when it was called. *)
Lemma Solve_iteration_converged (i : Z) (st : LoopState) (e : IterationEnd) :
  Solve_iteration i st = Some e ->
  is_converged e
  = residuals_converged
      (PerformIteration (problem_ (ls_solver st)) (backend_ (ls_solver st)))
    || match interm_returned e with Some r => r | None => false end.
Proof.
  intro Hit. open_iteration Hit;
    destruct (residuals_converged _); reflexivity.
Qed.

(** The intermediate callback is called exactly when the callback block is
    entered with [num_cback_calls >= 1]; the call is logged, with the
    iteration number [i + 1]. *)
Lemma Solve_iteration_interm (i : Z) (st : LoopState) (e : IterationEnd) :
  Solve_iteration i st = Some e ->
  match interm_returned e with
  | Some r =>
      (1 <= num_cback_calls (opts_ (ls_solver st)))%Z
      /\ exists x y,
          ls_calls (state_end e) = ls_calls st ++ [MkIntermCall (i + 1)%Z x y]
          /\ r = fst (interm_cb_ (ls_solver st) (i + 1)%Z x y
                                 (snd (stopping_cb_ (ls_solver st) (ls_host st))))
  | None => ls_calls (state_end e) = ls_calls st
  end.
Proof.
  intro Hit. open_iteration Hit; try reflexivity.
  all: split; [apply Z.leb_le; assumption|].
  all: match goal with
       | E : interm_cb_ _ _ ?a1 ?a2 _ = _ |- _ =>
           exists a1, a2; split; [reflexivity|]; cbn [snd]; rewrite E
       end.
  all: reflexivity.
Qed.

(** The break logic, read backwards. *)
Lemma Solve_body_cases (i : Z) (st : LoopState) :
  match Solve_body i st with
  | BodyNext st' =>
      exists e, Solve_iteration i st = Some e /\ st' = state_end e
                /\ is_stopped e = false /\ is_converged e = false
  | BodyBreak r st' =>
      exists e, Solve_iteration i st = Some e /\ st' = state_end e
                /\ ((r = kStoppedUser /\ is_stopped e = true)
                    \/ (r = kConverged /\ is_stopped e = false
                        /\ is_converged e = true))
  | BodyUndefined => Solve_iteration i st = None
  end.
Proof.
  unfold Solve_body, Solve_break.
  destruct (Solve_iteration i st) as [e|]; [|reflexivity].
  destruct (is_stopped e) eqn:Es.
  - exists e. repeat split. left. split; [reflexivity | exact Es].
  - destruct (is_converged e) eqn:Ec.
    + exists e. repeat split. right. repeat split; assumption.
    + exists e. repeat split; assumption.
Qed.

Lemma Solve_body_of_iteration (i : Z) (st : LoopState) (e : IterationEnd) :
  Solve_iteration i st = Some e -> Solve_body i st = Solve_break e.
Proof.
  intro E. unfold Solve_body. rewrite E. reflexivity.
Qed.

(** Every loop state that is reached carries the problem, the options and the
    callbacks of the solver that entered the loop. *)
Lemma reaches_frame (s : Solver) (h : Host) (k : nat) (st : LoopState) :
  reaches s h k st ->
  problem_ (ls_solver st) = problem_ s
  /\ opts_ (ls_solver st) = opts_ s
  /\ stopping_cb_ (ls_solver st) = stopping_cb_ s
  /\ interm_cb_ (ls_solver st) = interm_cb_ s.
Proof.
  induction 1 as [|k st st' _ IH _ Hb].
  - repeat split; reflexivity.
  - pose proof (Solve_body_cases (Z.of_nat k) st) as C. rewrite Hb in C.
    destruct C as (e & Hit & -> & _).
    destruct (Solve_iteration_frame _ _ Hit) as (F1 & F2 & F3 & F4).
    destruct IH as (I1 & I2 & I3 & I4).
    repeat split; congruence.
Qed.

(** The loop of [Solve], resumed from a state it reaches. *)
Lemma Solve_loop_skip (s : Solver) (h : Host) (k : nat) (st : LoopState) :
  reaches s h k st ->
  Solve_loop (Z.to_nat (max_iters (opts_ s))) 0%Z (initial s h)
  = Solve_loop (Z.to_nat (max_iters (opts_ s)) - k) (Z.of_nat k) st.
Proof.
  induction 1 as [|k st st' _ IH Hlt Hb].
  - rewrite Nat.sub_0_r. reflexivity.
  - rewrite IH.
    replace (Z.to_nat (max_iters (opts_ s)) - k)%nat
      with (S (Z.to_nat (max_iters (opts_ s)) - S k)) by lia.
    cbn [Solve_loop]. rewrite Hb.
    rewrite Nat2Z.inj_succ. unfold Z.succ. reflexivity.
Qed.

(** How the loop ends, told from its result. *)
Lemma Solve_loop_from (s : Solver) (h : Host) :
  forall (m k : nat) (st : LoopState),
    reaches s h k st ->
    (k + m)%nat = Z.to_nat (max_iters (opts_ s)) ->
    forall r st', Solve_loop m (Z.of_nat k) st = Some (r, st') ->
    match r with
    | kStoppedMaxIters => reaches s h (k + m) st'
    | kStoppedUser =>
        exists k' e, iteration s h k' e /\ st' = state_end e
                     /\ is_stopped e = true
    | kConverged =>
        exists k' e, iteration s h k' e /\ st' = state_end e
                     /\ is_stopped e = false /\ is_converged e = true
    end.
Proof.
  induction m as [|m IH]; intros k st Hr Hk r st' Hl.
  - cbn in Hl. injection Hl as <- <-. rewrite Nat.add_0_r. exact Hr.
  - assert (Hlt : (Z.of_nat k < max_iters (opts_ s))%Z) by lia.
    cbn [Solve_loop] in Hl.
    pose proof (Solve_body_cases (Z.of_nat k) st) as C.
    destruct (Solve_body (Z.of_nat k) st) as [st1|r1 st1|] eqn:Hb;
      [|injection Hl as <- <-|discriminate Hl].
    + assert (Hr1 : reaches s h (S k) st1) by (eapply reaches_next; eassumption).
      replace (Z.of_nat k + 1)%Z with (Z.of_nat (S k)) in Hl by lia.
      specialize (IH (S k) st1 Hr1 ltac:(lia) r st' Hl).
      replace (k + S m)%nat with (S k + m)%nat by lia. exact IH.
    + destruct C as (e & Hit & -> & [[-> Es]|(-> & Es & Ec)]).
      * exists k, e. repeat split; [exists st; repeat split|]; assumption.
      * exists k, e. repeat split; [exists st; repeat split| |]; assumption.
Qed.

(** An iteration that [Solve] runs decides its result when it breaks. *)
Lemma Solve_of_iteration (s : Solver) (h : Host) (k : nat) (e : IterationEnd) :
  iteration s h k e ->
  match Solve_break e with
  | BodyBreak r st' =>
      exists out, Solve s h = Some out /\ result out = r
                  /\ interm_calls out = ls_calls st'
                  /\ host_after out = ls_host st'
  | _ => True
  end.
Proof.
  intros (st & Hr & Hlt & Hit).
  destruct (Solve_break e) as [|r st'|] eqn:Hb; [exact I| |exact I].
  unfold Solve. fold (initial s h). rewrite (Solve_loop_skip Hr).
  replace (Z.to_nat (max_iters (opts_ s)) - k)%nat
    with (S (Z.to_nat (max_iters (opts_ s)) - S k)) by lia.
  cbn [Solve_loop]. rewrite (Solve_body_of_iteration _ _ Hit), Hb.
  eexists. split; [reflexivity|]. repeat split.
Qed.

(** The loop leaves the problem and the options of the solver as they are. *)
Lemma Solve_loop_frame :
  forall (m : nat) (i : Z) (st : LoopState) r st',
    Solve_loop m i st = Some (r, st') ->
    problem_ (ls_solver st') = problem_ (ls_solver st)
    /\ opts_ (ls_solver st') = opts_ (ls_solver st).
Proof.
  induction m as [|m IH]; intros i st r st' Hl; cbn [Solve_loop] in Hl.
  - injection Hl as <- <-. split; reflexivity.
  - pose proof (Solve_body_cases i st) as C.
    destruct (Solve_body i st) as [st1|r1 st1|];
      [|injection Hl as <- <-|discriminate Hl].
    + destruct C as (e & Hit & -> & _).
      destruct (Solve_iteration_frame _ _ Hit) as (F1 & F2 & _).
      destruct (IH _ _ _ _ Hl) as (I1 & I2). split; congruence.
    + destruct C as (e & Hit & -> & _).
      destruct (Solve_iteration_frame _ _ Hit) as (F1 & F2 & _).
      split; assumption.
Qed.

(** With [num_cback_calls < 1] the loop never calls the intermediate
    callback. *)
Lemma Solve_loop_no_calls :
  forall (m : nat) (i : Z) (st : LoopState) r st',
    (num_cback_calls (opts_ (ls_solver st)) < 1)%Z ->
    Solve_loop m i st = Some (r, st') ->
    ls_calls st' = ls_calls st.
Proof.
  induction m as [|m IH]; intros i st r st' Hn Hl; cbn [Solve_loop] in Hl.
  - injection Hl as <- <-. reflexivity.
  - pose proof (Solve_body_cases i st) as C.
    destruct (Solve_body i st) as [st1|r1 st1|];
      [|injection Hl as <- <-|discriminate Hl];
      destruct C as (e & Hit & -> & _);
      pose proof (Solve_iteration_interm _ _ Hit) as Hc;
      destruct (Solve_iteration_frame _ _ Hit) as (_ & F2 & _);
      (destruct (interm_returned e); [destruct Hc as [Hc _]; lia|]).
    + rewrite <- Hc. apply (IH _ _ _ _ ltac:(rewrite F2; exact Hn) Hl).
    + exact Hc.
Qed.

Lemma swap_x0_y0_twice (o : Options T) : swap_x0_y0 (swap_x0_y0 o) = o.
Proof. destruct o. reflexivity. Qed.

End Facts.
End SolverFacts.

Section SolverClaims.
Import Solver Run SolverFacts.
Context {T : Type} `{Scalar T} `{Collaborators T}.
Open Scope scalar_scope.

(** C10: if the stopping callback returns true in an iteration that [Solve]
    runs, [Solve] returns [kStoppedUser] and not [kConverged], whatever the
    convergence test and the intermediate callback say in that iteration:
    the user stop is checked, and acted on, before convergence. *)
Theorem user_stop_checked_first :
  forall (s : Solver) (h : Host) (k : nat) (st : LoopState) (e : IterationEnd),
    reaches s h k st ->
    (Z.of_nat k < max_iters (opts_ s))%Z ->
    Solve_iteration (Z.of_nat k) st = Some e ->
    fst (stopping_cb_ s (ls_host st)) = true ->
    exists out, Solve s h = Some out
                /\ result out = kStoppedUser
                /\ result out <> kConverged.
Proof.
  intros s h k st e Hr Hlt Hit Hstop.
  assert (Es : is_stopped e = true).
  { rewrite (Solve_iteration_stopped _ _ Hit).
    destruct (reaches_frame Hr) as (_ & _ & -> & _). exact Hstop. }
  assert (Hi : iteration s h k e) by (exists st; repeat split; assumption).
  pose proof (Solve_of_iteration Hi) as S.
  unfold Solve_break in S. rewrite Es in S.
  destruct S as (out & E & R & _).
  exists out. repeat split; [assumption | assumption | rewrite R; discriminate].
Qed.

(** C1, as the code has it: in an iteration that [Solve] runs, convergence is
    declared exactly when the primal residual is strictly below [eps_primal]
    and the dual residual strictly below [eps_dual], or the intermediate
    callback was called in that iteration and returned true.  If moreover the
    stopping callback returned false in that iteration, [Solve] breaks there
    and returns [kConverged]; and [Solve] returns [kConverged] in no other
    way. *)
Theorem convergence_declared :
  forall (s : Solver) (h : Host),
    (forall (k : nat) (st : LoopState) (e : IterationEnd),
        reaches s h k st ->
        (Z.of_nat k < max_iters (opts_ s))%Z ->
        Solve_iteration (Z.of_nat k) st = Some e ->
        let b := PerformIteration (problem_ s) (backend_ (ls_solver st)) in
        (is_converged e = true <->
         ((primal_residual b <? eps_primal b) = true
          /\ (dual_residual b <? eps_dual b) = true)
         \/ interm_returned e = Some true)
        /\ (is_converged e = true ->
            fst (stopping_cb_ s (ls_host st)) = false ->
            exists out, Solve s h = Some out
                        /\ result out = kConverged
                        /\ interm_calls out = ls_calls (state_end e)))
    /\ (forall out, Solve s h = Some out -> result out = kConverged ->
        exists k e, iteration s h k e
                    /\ is_converged e = true /\ is_stopped e = false).
Proof.
  intros s h. split.
  - intros k st e Hr Hlt Hit b.
    destruct (reaches_frame Hr) as (Fp & _ & Fs & _).
    split.
    + rewrite (Solve_iteration_converged _ _ Hit), Fp. fold b.
      unfold residuals_converged.
      rewrite orb_true_iff, andb_true_iff.
      destruct (interm_returned e) as [[|]|]; split; intros [C|C];
        solve [ left; exact C | right; reflexivity | discriminate C ].
    + intros Ec Hns.
      assert (Es : is_stopped e = false).
      { rewrite (Solve_iteration_stopped _ _ Hit), Fs. exact Hns. }
      assert (Hi : iteration s h k e) by (exists st; repeat split; assumption).
      pose proof (Solve_of_iteration Hi) as S.
      unfold Solve_break in S. rewrite Es, Ec in S.
      destruct S as (out & E & R & Cl & _).
      exists out. repeat split; assumption.
  - intros out E R. unfold Solve in E. fold (initial s h) in E.
    destruct (Solve_loop _ _ _) as [[r st']|] eqn:L; [|discriminate E].
    injection E as <-. cbn in R. subst r.
    pose proof (@Solve_loop_from _ _ _ s h (Z.to_nat (max_iters (opts_ s))) 0
                                 (initial s h) (reaches_start s h)
                                 ltac:(lia) kConverged st' L) as C.
    destruct C as (k' & e & Hi & _ & Es & Ec).
    exists k', e. repeat split; assumption.
Qed.
End SolverClaims.

Section Linspace.
Open Scope Q_scope.

Lemma linspace_length (a b : Q) (n : Z) :
  List.length (linspace a b n) = Z.to_nat n.
Proof.
  unfold linspace. rewrite length_map, length_seq. reflexivity.
Qed.

Lemma linspace_nth (a b : Q) (n : Z) (k : nat) :
  (k < Z.to_nat n)%nat ->
  nth k (linspace a b n) 0
  = a + inject_Z (Z.of_nat k) * (b - a) / inject_Z (n - 1).
Proof.
  intro Hk. unfold linspace.
  set (f := fun k0 : nat => a + inject_Z (Z.of_nat k0) * (b - a) / inject_Z (n - 1)).
  rewrite (nth_indep _ 0 (f O)) by (rewrite length_map, length_seq; exact Hk).
  rewrite map_nth, seq_nth by exact Hk. reflexivity.
Qed.

(** With at least two points the first one is [a] and the last one [b]. *)
Lemma linspace_ends (a b : Q) (n : Z) :
  (2 <= n)%Z ->
  nth 0 (linspace a b n) 0 == a
  /\ nth (Z.to_nat n - 1) (linspace a b n) 0 == b.
Proof.
  intro Hn. split.
  - rewrite linspace_nth by lia. cbn [Z.of_nat]. unfold Qdiv.
    setoid_replace (inject_Z 0) with 0 by reflexivity. ring.
  - rewrite linspace_nth by lia.
    replace (Z.of_nat (Z.to_nat n - 1)) with (n - 1)%Z by lia.
    assert (Hz : ~ inject_Z (n - 1) == 0).
    { intro E. unfold Qeq in E. cbn in E. lia. }
    field. exact Hz.
Qed.
End Linspace.

Section ScheduleClaims.
Import Solver Run SolverFacts.
Context {T : Type} `{Scalar T} `{Collaborators T}.

(** C2, as the code has it: with [num_cback_calls >= 2] [Solve] starts from
    the schedule of [num_cback_calls] points spaced linearly over
    [[0, max_iters - 1]]; with [num_cback_calls < 2] there is no schedule, the
    list holds the single entry 1e8; and the intermediate callback is never
    called during the whole [Solve] when [num_cback_calls < 1]. *)
Theorem callback_schedule_and_disabling :
  forall (s : Solver) (h : Host),
    let o := opts_ s in
    let n := num_cback_calls o in
    ((2 <= n)%Z ->
     callback_schedule o = linspace 0 (inject_Z (max_iters o - 1)) n
     /\ List.length (callback_schedule o) = Z.to_nat n
     /\ (forall k, (k < Z.to_nat n)%nat ->
                   nth k (callback_schedule o) 0%Q
                   == inject_Z (Z.of_nat k) * inject_Z (max_iters o - 1)
                      / inject_Z (n - 1))%Q
     /\ (nth 0 (callback_schedule o) 0 == 0)%Q
     /\ (nth (Z.to_nat n - 1) (callback_schedule o) 0
         == inject_Z (max_iters o - 1))%Q)
    /\ ((n < 2)%Z -> callback_schedule o = [inject_Z 100000000])
    /\ ((n < 1)%Z ->
        forall out, Solve s h = Some out -> interm_calls out = []).
Proof.
  intros s h o n. split; [|split].
  - intro Hn.
    assert (E : callback_schedule o = linspace 0 (inject_Z (max_iters o - 1)) n).
    { unfold callback_schedule. fold n.
      destruct (Z.leb_spec 2 n); [reflexivity | lia]. }
    rewrite E. split; [reflexivity|].
    split; [apply linspace_length|].
    split; [|apply linspace_ends; exact Hn].
    intros k Hk. rewrite linspace_nth by exact Hk. unfold Qdiv. ring.
  - intro Hn. unfold callback_schedule. fold n.
    destruct (Z.leb_spec 2 n); [lia | reflexivity].
  - intros Hn out E. unfold Solve in E.
    destruct (Solve_loop _ _ _) as [[r st']|] eqn:L; [|discriminate E].
    injection E as <-. cbn [interm_calls].
    apply Solve_loop_no_calls in L; [exact L | exact Hn].
Qed.

(** C4: with [solve_dual_problem] set, [Initialize] applies
    [Problem::Dualize] once to the initialised problem and swaps [x0] and
    [y0]; [Solve] applies [Dualize] once more after its loop and swaps [x0]
    and [y0] back, so that at return the options are the ones [Initialize]
    was given and the problem is the initialised problem dualized twice,
    which is the initialised problem itself when dualizing exchanges the two
    sides; the return code is one of the three result codes. *)
Theorem dualization_restored :
  forall (s s1 : Solver) (h : Host) (out : SolveOutcome),
    solve_dual_problem (opts_ s) = true ->
    Initialize s = inr s1 ->
    Solve s1 h = Some out ->
    exists p0,
      Problem_Initialize (problem_ s) = inr p0
      /\ problem_ s1 = Problem_Dualize p0
      /\ x0 (opts_ s1) = y0 (opts_ s) /\ y0 (opts_ s1) = x0 (opts_ s)
      /\ problem_ (solver_after out) = Problem_Dualize (problem_ s1)
      /\ (Dualize_exchanges -> problem_ (solver_after out) = p0)
      /\ opts_ (solver_after out) = opts_ s
      /\ (result out = kConverged \/ result out = kStoppedMaxIters
          \/ result out = kStoppedUser).
Proof.
  intros s s1 h out Hd Hi Hs.
  unfold Initialize in Hi. rewrite Hd in Hi.
  destruct (Problem_Initialize (problem_ s)) as [e0|p0]; [discriminate Hi|].
  destruct (Backend_Initialize _ _ _) as [e1|b]; [discriminate Hi|].
  injection Hi as <-.
  exists p0. split; [reflexivity|]. split; [reflexivity|].
  split; [reflexivity|]. split; [reflexivity|].
  unfold Solve in Hs.
  destruct (Solve_loop _ _ _) as [[r st']|] eqn:L; [|discriminate Hs].
  apply Solve_loop_frame in L. cbn [ls_solver problem_ opts_] in L.
  destruct L as (Fp & Fo).
  rewrite Fo in Hs. cbn [swap_x0_y0 solve_dual_problem] in Hs. rewrite Hd in Hs.
  injection Hs as <-. cbn [solver_after problem_ opts_ result].
  rewrite Fp.
  split; [reflexivity|].
  split; [intro Hx; apply Hx|].
  split; [apply swap_x0_y0_twice|].
  destruct r; auto.
Qed.
End ScheduleClaims.

Section Definedness.
Import Solver Run SolverFacts.
Context {T : Type} `{Scalar T} `{Collaborators T}.

Lemma Solve_iteration_defined (i : Z) (st : LoopState) :
  ls_cb_iters st <> [] -> exists e, Solve_iteration i st = Some e.
Proof.
  intro Hne. unfold Solve_iteration. cbv zeta.
  destruct (stopping_cb_ _ _) as [stp h1].
  destruct (ls_cb_iters st) as [|front rest]; [contradiction|].
  destruct (callback_due _ _ _ _ _).
  - destruct (current_solution _) as [[[x Kx] y] Kty].
    destruct (1 <=? _)%Z.
    + destruct (solve_dual_problem _); cbv beta iota zeta;
        destruct (interm_cb_ _ _ _ _ _) as [r h2]; eexists; reflexivity.
    + eexists; reflexivity.
  - eexists; reflexivity.
Qed.

(** An iteration that neither stops nor converges, and is not the last one,
    pops the front of [cb_iters] only when the counter has reached it. *)
Lemma Solve_iteration_schedule (i : Z) (st : LoopState) (e : IterationEnd) :
  Solve_iteration i st = Some e ->
  is_stopped e = false -> is_converged e = false ->
  (i < max_iters (opts_ (ls_solver st)) - 1)%Z ->
  match ls_cb_iters st with
  | [] => False
  | front :: rest =>
      ls_cb_iters (state_end e)
      = if Qle_bool front (inject_Z i) then rest else front :: rest
  end.
Proof.
  intros Hit Es Ec Hlt.
  pose proof (Solve_iteration_converged _ _ Hit) as Hc.
  rewrite Ec in Hc. symmetry in Hc. apply orb_false_iff in Hc.
  destruct Hc as [Hres _].
  assert (Hi : (i =? max_iters (opts_ (ls_solver st)) - 1)%Z = false)
    by (apply Z.eqb_neq; lia).
  open_iteration Hit; cbn [is_stopped] in Es; subst;
    match goal with
    | D : callback_due _ _ _ _ _ = _ |- _ =>
        unfold callback_due in D; rewrite Hres, Hi in D;
        rewrite !orb_false_r in D; rewrite D
    end; reflexivity.
Qed.

Lemma schedule_lasts_step (max i : Z) (front : Q) (rest : list Q) :
  schedule_lasts max (front :: rest) ->
  (i < max - 1)%Z ->
  schedule_lasts max (if Qle_bool front (inject_Z i) then rest else front :: rest).
Proof.
  intros [Hne Hl] Hi.
  destruct (Qle_bool front (inject_Z i)) eqn:E; [|split; assumption].
  apply Qle_bool_iff in E.
  assert (Hq : (inject_Z i <= inject_Z (max - 2))%Q)
    by (rewrite <- Zle_Qle; lia).
  destruct rest as [|q rest'].
  - cbn [last] in Hl. lra.
  - split; [discriminate | exact Hl].
Qed.

Lemma Solve_loop_defined :
  forall (m : nat) (i : Z) (st : LoopState),
    (m <> O -> i + Z.of_nat m <= max_iters (opts_ (ls_solver st)))%Z ->
    (m <> O -> schedule_lasts (max_iters (opts_ (ls_solver st))) (ls_cb_iters st)) ->
    exists res, Solve_loop m i st = Some res.
Proof.
  induction m as [|m IH]; intros i st Hm Hinv; cbn [Solve_loop].
  - eexists; reflexivity.
  - specialize (Hinv ltac:(discriminate)). specialize (Hm ltac:(discriminate)).
    destruct (Solve_iteration_defined i st (proj1 Hinv)) as [e Hit].
    rewrite (Solve_body_of_iteration _ _ Hit). unfold Solve_break.
    destruct (is_stopped e) eqn:Es; [eexists; reflexivity|].
    destruct (is_converged e) eqn:Ec; [eexists; reflexivity|].
    destruct (Solve_iteration_frame _ _ Hit) as (_ & Fo & _).
    apply IH; rewrite Fo; [intro; lia|].
    intro Hm'.
    assert (Hs := Hit).
    apply Solve_iteration_schedule in Hs; [|exact Es|exact Ec|lia].
    destruct (ls_cb_iters st) as [|front rest]; [contradiction|].
    rewrite Hs. apply schedule_lasts_step; [exact Hinv | lia].
Qed.

Lemma linspace_lasts (max n : Z) :
  (2 <= n)%Z -> schedule_lasts max (linspace 0 (inject_Z (max - 1)) n).
Proof.
  intro Hn. unfold linspace.
  destruct (Z.to_nat n) as [|m] eqn:En; [lia|].
  rewrite seq_S, map_app. cbn [map Nat.add].
  split; [intro E; apply app_eq_nil in E; destruct E; discriminate|].
  rewrite last_last.
  replace (n - 1)%Z with (Z.of_nat m) by lia.
  assert (Hz : ~ (inject_Z (Z.of_nat m) == 0)%Q).
  { intro E. unfold Qeq in E. cbn in E. lia. }
  setoid_replace (0 + inject_Z (Z.of_nat m) * (inject_Z (max - 1) - 0)
                      / inject_Z (Z.of_nat m))%Q
    with (inject_Z (max - 1)) by (field; exact Hz).
  rewrite <- Zlt_Qlt. lia.
Qed.

(** [Solve] returns: its behaviour is defined whenever a schedule was asked
    for, or there are at most 1e8 + 1 iterations to run. *)
Lemma Solve_defined (s : Solver) (h : Host) :
  (2 <= num_cback_calls (opts_ s) \/ max_iters (opts_ s) <= 100000001)%Z ->
  exists out, Solve s h = Some out.
Proof.
  intro Hc. unfold Solve.
  destruct (@Solve_loop_defined (Z.to_nat (max_iters (opts_ s))) 0
              (MkLoopState s h (callback_schedule (opts_ s)) []))
    as [[r st'] E].
  - cbn [ls_solver]. intro. lia.
  - intros _. cbn [ls_solver ls_cb_iters]. unfold callback_schedule.
    destruct (Z.leb_spec 2 (num_cback_calls (opts_ s))).
    + apply linspace_lasts. assumption.
    + split; [discriminate|]. cbn [last]. rewrite <- Zlt_Qlt. lia.
  - rewrite E. eexists; reflexivity.
Qed.
End Definedness.

(* ================================================================== *)
(** * Properties of the MEX layer *)

Module MexFacts.
Import Mex.

Section Facts.
Context {T : Type} `{Scalar T} `{Collaborators T}.
Open Scope mex_scope.

Lemma bind_Normal_inv {A B} (c : M A) (k : A -> M B) st b st' :
  bind c k st = (Normal b, st') ->
  exists a st1, c st = (Normal a, st1) /\ k a st1 = (Normal b, st').
Proof.
  unfold bind. destruct (c st) as [[a|e|msg|] st1]; intro E;
    try discriminate E.
  exists a, st1. split; [reflexivity | exact E].
Qed.

(** Whenever the [try] block throws, [mexFunction] ends in [mexErrMsgTxt]:
    the call of [Release] that follows it in the [catch] block is never
    reached, and no event is added to the trace after the report. *)
Lemma mexFunction_catch (nlhs : Z) (cmd : string) (args : list (mxArray T))
      (st st' : MexState) (e : Exception) :
  dispatch cmd nlhs args st = (Thrown e, st') ->
  mexFunction nlhs (mxString cmd :: args) st
  = (HostError (what e), reported (what e) st').
Proof.
  intro E. unfold mexFunction. cbn [List.length Nat.eqb tl].
  unfold bind at 1. cbn [ret]. unfold bind at 1. cbn [prhs_at nth_error of_option ret].
  unfold bind at 1. cbn [mxArrayToString ret].
  unfold try_catch. rewrite E.
  unfold bind, mexErrMsgTxt, reported. reflexivity.
Qed.

(** ** What a normal return of each step tells *)

Lemma prhs_at_Normal (prhs : list (mxArray T)) (i : nat) st a st1 :
  prhs_at prhs i st = (Normal a, st1) -> nth_error prhs i = Some a /\ st1 = st.
Proof.
  unfold prhs_at, of_option, ret, undefined.
  destruct (nth_error prhs i); intro E; [|discriminate E].
  injection E as -> ->. split; reflexivity.
Qed.

Lemma mxGetScalar_Normal (a : mxArray T) st v st1 :
  mxGetScalar a st = (Normal v, st1) -> st1 = st.
Proof.
  unfold mxGetScalar, ret, undefined.
  destruct a as [m n [|v0 pr]|s|f|m n c|id]; intro E; try discriminate E.
  injection E as _ ->. reflexivity.
Qed.

Lemma call_Normal {A} (r : Exception + A) st a st1 :
  call r st = (Normal a, st1) -> r = inr a /\ st1 = st.
Proof.
  unfold call, ret. destruct r; intro E; [discriminate E|].
  injection E as -> ->. split; reflexivity.
Qed.

Lemma copy_to_column_Normal (v : list T) (n : nat) st a st1 :
  copy_to_column v n st = (Normal a, st1) ->
  a = mxDoubleMatrix n 1 (v ++ repeat s_zero (n - List.length v))
  /\ (List.length v <= n)%nat /\ st1 = st.
Proof.
  unfold copy_to_column, ret, undefined.
  destruct (Nat.leb_spec (List.length v) n); intro E; [|discriminate E].
  injection E as <- <-. repeat split. assumption.
Qed.

Lemma run_Solve_Normal (solver : Solver.Solver) st out st1 :
  run_Solve solver st = (Normal out, st1) ->
  Solver.Solve solver (host st) = Some out
  /\ st1 = MkMexState (current_gpu_device st) (Solver.host_after out) (trace st).
Proof.
  unfold run_Solve. destruct (Solver.Solve solver (host st)); intro E;
    [|discriminate E].
  injection E as -> <-. split; reflexivity.
Qed.

Lemma padded_length (v : list T) (n : nat) :
  (List.length v <= n)%nat ->
  List.length (v ++ repeat s_zero (n - List.length v)) = n.
Proof. intro L. rewrite length_app, repeat_length. lia. Qed.

End Facts.
End MexFacts.

Section DispatcherClaims.
Import Mex MexFacts.
Context {T : Type} `{Scalar T} `{Collaborators T}.

(** C3, evaluated on the code: a command that throws (here a command name
    that [cmd_reg] does not hold, and [eval_prox] with too few inputs) is
    caught and its message is reported with [mexErrMsgTxt], where the MEX
    function ends; [Release] does not run: the trace ends with the report,
    with no [EvMexUnlock] and no [EvCudaDeviceReset] after it. *)
Theorem thrown_command_reported_without_Release :
  forall (nlhs : Z) (st : MexState),
    mexFunction nlhs [mxString "bogus"] st
    = (HostError "Unknown command 'bogus'.",
       MkMexState (current_gpu_device st) (host st)
                  (trace st ++ [EvMexErrMsgTxt "Unknown command 'bogus'."]))
    /\ mexFunction nlhs [mxString "eval_prox"] st
       = (HostError "eval_prox: At least four inputs required.",
          MkMexState (current_gpu_device st) (host st)
                     (trace st
                      ++ [EvMexErrMsgTxt "eval_prox: At least four inputs required."])).
Proof.
  intros nlhs st. split.
  - exact (mexFunction_catch nlhs "bogus" [] st (st' := st)
             (e := MkException "Unknown command 'bogus'.") eq_refl).
  - exact (mexFunction_catch nlhs "eval_prox" [] st (st' := st)
             (e := MkException "eval_prox: At least four inputs required.")
             eq_refl).
Qed.
End DispatcherClaims.

Section EvalProxClaims.
Import Mex MexFacts.
Context {T : Type} `{Scalar T} `{Collaborators T}.

(** C6: [eval_prox] fails with an exception when fewer than four inputs or
    zero outputs are supplied, and whenever the length [n] of the argument
    vector differs from the size of the prox built from the description; when
    [n] matches (the device being selected, the argument a column of [n]
    entries with [n] step sizes and a scalar step, the prox evaluating to at
    most [n] values) it returns exactly the pair of an [n] x 1 result and a
    1 x 1 time. *)
Theorem EvalProx_checks_size :
  forall (nlhs : Z) (prhs : list (mxArray T)) (st : MexState),
    ((List.length prhs < 4)%nat ->
     EvalProx nlhs prhs st
     = (Thrown (MkException "eval_prox: At least four inputs required."), st))
    /\ ((4 <= List.length prhs)%nat -> nlhs = 0%Z ->
        EvalProx nlhs prhs st
        = (Thrown (MkException "One output (result of prox) required."), st))
    /\ (forall a0 a1 prox prox',
           nth_error prhs 0 = Some a0 -> nth_error prhs 1 = Some a1 ->
           CreateProx a0 = inr prox -> Prox_Initialize prox = inr prox' ->
           Prox_size prox' <> fst (mxGetDimensions a1) ->
           exists e st', EvalProx nlhs prhs st = (Thrown e, st'))
    /\ (forall a0 n arg a2 tau m2 n2 pr2 m3 n3 tau_diag rest prox prox'
               h_result milliseconds,
           prhs = a0 :: mxDoubleMatrix n 1 arg :: a2
                     :: mxDoubleMatrix m3 n3 tau_diag :: rest ->
           a2 = mxDoubleMatrix m2 n2 (tau :: pr2) ->
           nlhs <> 0%Z ->
           cudaSetDevice_succeeds (current_gpu_device st) = true ->
           List.length arg = n -> (n <= List.length tau_diag)%nat ->
           CreateProx a0 = inr prox -> Prox_Initialize prox = inr prox' ->
           Prox_size prox' = n ->
           Prox_Eval prox' arg (firstn n tau_diag) tau
           = inr (h_result, milliseconds) ->
           (List.length h_result <= n)%nat ->
           exists result st',
             EvalProx nlhs prhs st
             = (Normal [mxDoubleMatrix n 1 result;
                        mxDoubleMatrix 1 1 [milliseconds]], st')
             /\ List.length result = n
             /\ firstn (List.length h_result) result = h_result).
Proof.
  intros nlhs prhs st. split; [|split; [|split]].
  - intro Hlt. unfold EvalProx.
    destruct (Nat.ltb_spec (List.length prhs) 4); [reflexivity | lia].
  - intros Hge ->. unfold EvalProx.
    destruct (Nat.ltb_spec (List.length prhs) 4); [lia | reflexivity].
  - intros a0 a1 prox prox' E0 E1 Ec Ei Hne. unfold EvalProx.
    destruct (List.length prhs <? 4)%nat; [eexists; eexists; reflexivity|].
    destruct (nlhs =? 0)%Z; [eexists; eexists; reflexivity|].
    unfold select_device, cudaSetDevice, cudaDeviceReset, emit, bind, throw, ret.
    cbn [current_gpu_device host trace].
    destruct (cudaSetDevice_succeeds (current_gpu_device st));
      [|eexists; eexists; reflexivity].
    unfold prhs_at. rewrite E1. cbn [of_option ret].
    destruct (snd (mxGetDimensions a1) =? 1)%nat; cbn [negb];
      [|eexists; eexists; reflexivity].
    rewrite E0. cbn [of_option ret]. rewrite Ec. cbn [call ret].
    rewrite Ei. cbn [call ret].
    destruct (Nat.eqb_spec (Prox_size prox') (fst (mxGetDimensions a1)));
      [contradiction|].
    cbn [negb]. eexists; eexists; reflexivity.
  - intros a0 n arg a2 tau m2 n2 pr2 m3 n3 tau_diag rest prox prox'
           h_result milliseconds -> -> Hnl Hdev Harg Htau Ec Ei Hsz Hev Hres.
    exists (h_result ++ repeat s_zero (n - List.length h_result)).
    unfold EvalProx. cbn [List.length Nat.ltb Nat.leb].
    destruct (Z.eqb_spec nlhs 0); [contradiction|].
    unfold select_device, cudaSetDevice, cudaDeviceReset, emit, bind, throw, ret.
    cbn [current_gpu_device host trace]. rewrite Hdev.
    unfold prhs_at. cbn [nth_error of_option ret mxGetDimensions fst snd Nat.eqb negb].
    rewrite Ec. cbn [call ret]. rewrite Ei. cbn [call ret].
    rewrite Hsz, Nat.eqb_refl. cbn [negb].
    unfold read_pr. rewrite Harg, Nat.leb_refl. cbn [ret].
    destruct (Nat.leb_spec n (List.length tau_diag)); [|lia]. cbn [ret mxGetScalar].
    rewrite (firstn_all2 (n := n) arg) by lia. rewrite Hev. cbn [call ret].
    unfold copy_to_column.
    destruct (Nat.leb_spec (List.length h_result) n); [|lia]. cbn [ret].
    eexists. split; [reflexivity|]. split.
    + rewrite length_app, repeat_length. lia.
    + rewrite firstn_app, Nat.sub_diag, firstn_all. cbn [firstn].
      apply app_nil_r.
Qed.
End EvalProxClaims.

Section SolveProblemClaims.
Import Mex MexFacts.
Context {T : Type} `{Scalar T} `{Collaborators T}.

(** C5, as the code has it: when [solve_problem] returns, [plhs[0]] is a
    struct with exactly five fields named x, y, z, w, result, in this order:
    x is the primal solution, a column of [ncols] entries; y the dual
    solution, [nrows] entries; z holds Kx, [nrows] entries; w holds K^T y,
    [ncols] entries; and result is the one of the three strings
    "Converged.", "Reached maximum iterations.", "Stopped by user." that
    belongs to the return code of [Solve]. *)
Theorem SolveProblem_returns_struct :
  forall (nlhs : Z) (prhs : list (mxArray T)) (st st' : MexState)
         (plhs : list (mxArray T)),
    SolveProblem nlhs prhs st = (Normal plhs, st') ->
    exists problem backend opts solver h out x y z w,
      Solver.Initialize
        (Solver.new_Solver problem backend opts
                           SolverIntermCallback MexStoppingCallback)
      = inr solver
      /\ Solver.Solve solver h = Some out
      /\ plhs = [mxStructMatrix
                   [("x"%string, x); ("y"%string, y); ("z"%string, z);
                    ("w"%string, w);
                    ("result"%string,
                     mxString (result_string (Solver.result out)))]]
      /\ (let s := Solver.solver_after out in
          let nrows := Problem_nrows (Solver.problem_ s) in
          let ncols := Problem_ncols (Solver.problem_ s) in
          column_of ncols (Solver.cur_primal_sol s) x
          /\ column_of nrows (Solver.cur_dual_sol s) y
          /\ column_of nrows (Solver.cur_primal_constr_sol s) z
          /\ column_of ncols (Solver.cur_dual_constr_sol s) w)
      /\ ((Solver.result out = kConverged
           /\ result_string (Solver.result out) = "Converged."%string)
          \/ (Solver.result out = kStoppedMaxIters
              /\ result_string (Solver.result out)
                 = "Reached maximum iterations."%string)
          \/ (Solver.result out = kStoppedUser
              /\ result_string (Solver.result out) = "Stopped by user."%string)).
Proof.
  intros nlhs prhs st st' plhs E. unfold SolveProblem in E.
  apply bind_Normal_inv in E as (u0 & s0 & _ & E).
  apply bind_Normal_inv in E as (u1 & s1 & _ & E).
  apply bind_Normal_inv in E as (a1 & s2 & _ & E).
  apply bind_Normal_inv in E as (v1 & s3 & _ & E).
  apply bind_Normal_inv in E as (a2 & s4 & _ & E).
  apply bind_Normal_inv in E as (v2 & s5 & _ & E).
  apply bind_Normal_inv in E as (a0 & s6 & _ & E).
  apply bind_Normal_inv in E as (problem & s7 & _ & E).
  apply bind_Normal_inv in E as (a3 & s8 & _ & E).
  apply bind_Normal_inv in E as (backend & s9 & _ & E).
  apply bind_Normal_inv in E as (a4 & s10 & _ & E).
  apply bind_Normal_inv in E as (opts & s11 & _ & E).
  apply bind_Normal_inv in E as (solver & s12 & Hi & E).
  apply call_Normal in Hi as (Hi & _).
  apply bind_Normal_inv in E as (out & s13 & Hs & E).
  apply run_Solve_Normal in Hs as (Hs & _).
  apply bind_Normal_inv in E as (y & s14 & Hy & E).
  apply bind_Normal_inv in E as (x & s15 & Hx & E).
  apply bind_Normal_inv in E as (z & s16 & Hz & E).
  apply bind_Normal_inv in E as (w & s17 & Hw & E).
  apply bind_Normal_inv in E as (u2 & s18 & _ & E).
  unfold ret in E. injection E as <- _.
  apply copy_to_column_Normal in Hy as (-> & Ly & _).
  apply copy_to_column_Normal in Hx as (-> & Lx & _).
  apply copy_to_column_Normal in Hz as (-> & Lz & _).
  apply copy_to_column_Normal in Hw as (-> & Lw & _).
  exists problem, backend, opts, solver, (host s12), out. do 4 eexists.
  split; [exact Hi|]. split; [exact Hs|]. split; [reflexivity|]. split.
  - cbv zeta. repeat split; eexists; (split; [reflexivity|]);
      (split; [apply padded_length; assumption|]);
      rewrite firstn_app, Nat.sub_diag, firstn_all; apply app_nil_r.
  - destruct (Solver.result out); cbn [result_string]; auto.
Qed.

(** [solve_problem] does return: when the device can be selected, the five
    arguments are there, the factory, [Initialize] and [Solve] succeed and
    the four solution vectors fit the sizes of the problem, the command ends
    normally. *)
Lemma SolveProblem_returns :
  forall (nlhs : Z) (st : MexState) a0 a3 a4 rest m1 n1 v1 pr1 m2 n2 v2 pr2
         problem backend opts solver out,
    cudaSetDevice_succeeds (current_gpu_device st) = true ->
    CreateProblem a0 (to_size_t v1) (to_size_t v2) = inr problem ->
    CreateBackend a3 = inr backend ->
    CreateSolverOptions a4 = inr opts ->
    Solver.Initialize
      (Solver.new_Solver problem backend opts
                         SolverIntermCallback MexStoppingCallback)
    = inr solver ->
    Solver.Solve solver (host st) = Some out ->
    (let s := Solver.solver_after out in
     let nrows := Problem_nrows (Solver.problem_ s) in
     let ncols := Problem_ncols (Solver.problem_ s) in
     (List.length (Solver.cur_primal_sol s) <= ncols)%nat
     /\ (List.length (Solver.cur_dual_sol s) <= nrows)%nat
     /\ (List.length (Solver.cur_primal_constr_sol s) <= nrows)%nat
     /\ (List.length (Solver.cur_dual_constr_sol s) <= ncols)%nat) ->
    exists plhs st',
      SolveProblem nlhs
        (a0 :: mxDoubleMatrix m1 n1 (v1 :: pr1)
            :: mxDoubleMatrix m2 n2 (v2 :: pr2) :: a3 :: a4 :: rest) st
      = (Normal plhs, st').
Proof.
  intros nlhs st a0 a3 a4 rest m1 n1 v1 pr1 m2 n2 v2 pr2
         problem backend opts solver out Hdev Hp Hb Ho Hi Hs (Lx & Ly & Lz & Lw).
  unfold SolveProblem.
  unfold select_device, cudaSetDevice, cudaDeviceReset, ResetConstMem, emit,
    bind, throw, ret.
  cbn [current_gpu_device host trace]. rewrite Hdev.
  unfold prhs_at. cbn [nth_error of_option ret mxGetScalar].
  rewrite Hp. cbn [call ret]. rewrite Hb. cbn [call ret].
  rewrite Ho. cbn [call ret]. rewrite Hi. cbn [call ret].
  unfold run_Solve. cbn [host]. rewrite Hs.
  unfold copy_to_column.
  destruct (Nat.leb_spec (List.length (Solver.cur_dual_sol (Solver.solver_after out)))
              (Problem_nrows (Solver.problem_ (Solver.solver_after out))));
    [|lia].
  destruct (Nat.leb_spec (List.length (Solver.cur_primal_sol (Solver.solver_after out)))
              (Problem_ncols (Solver.problem_ (Solver.solver_after out))));
    [|lia].
  destruct (Nat.leb_spec
              (List.length (Solver.cur_primal_constr_sol (Solver.solver_after out)))
              (Problem_nrows (Solver.problem_ (Solver.solver_after out))));
    [|lia].
  destruct (Nat.leb_spec
              (List.length (Solver.cur_dual_constr_sol (Solver.solver_after out)))
              (Problem_ncols (Solver.problem_ (Solver.solver_after out))));
    [|lia].
  cbn [ret]. eexists. eexists. reflexivity.
Qed.
End SolveProblemClaims.

(* ================================================================== *)
(** * The properties on the scripted world *)

Section Scripted_runs.
Import Solver Run Mex.

Lemma Scripted_dualize_exchanges : Dualize_exchanges (T := Q).
Proof.
  intros [nrows ncols dualized]. cbn. unfold Scripted.dualize. cbn.
  rewrite negb_involutive. reflexivity.
Qed.

Lemma user_stop_checked_first_witness :
  fst (stopping_cb_ Scripted.converging Scripted.interrupted) = true
  /\ exists out, Solve Scripted.converging Scripted.interrupted = Some out
                 /\ result out = kStoppedUser
                 /\ result out <> kConverged.
Proof.
  split; [reflexivity|].
  eapply (@user_stop_checked_first Q _ _ Scripted.converging
                                   Scripted.interrupted 0%nat).
  - apply reaches_start.
  - reflexivity.
  - vm_compute. reflexivity.
  - reflexivity.
Defined.

(** Against C1 as stated: in the first iteration both residuals are below
    their tolerances, so convergence is declared; the user interrupts in the
    same iteration, and [Solve] returns [kStoppedUser], not [kConverged]. *)
Lemma convergence_declared_counterexample :
  exists e out,
    iteration Scripted.converging Scripted.interrupted 0 e
    /\ is_converged e = true
    /\ Solve Scripted.converging Scripted.interrupted = Some out
    /\ result out = kStoppedUser
    /\ result out <> kConverged.
Proof.
  eexists. eexists. split; [|split; [|split; [|split]]].
  - eexists. split; [apply reaches_start|]. split; [reflexivity|].
    vm_compute. reflexivity.
  - reflexivity.
  - vm_compute. reflexivity.
  - reflexivity.
  - discriminate.
Qed.

Lemma convergence_declared_witness :
  fst (stopping_cb_ Scripted.converging Scripted.quiet) = false
  /\ exists out, Solve Scripted.converging Scripted.quiet = Some out
                 /\ result out = kConverged.
Proof.
  split; [reflexivity|].
  pose proof (proj1 (@convergence_declared Q _ _ Scripted.converging
                                            Scripted.quiet)) as W0.
  edestruct (W0 0%nat (initial Scripted.converging Scripted.quiet)) as [_ W];
    [apply reaches_start | reflexivity | vm_compute; reflexivity |].
  destruct (W eq_refl eq_refl) as (out & E & R & _).
  exists out. split; assumption.
Defined.

Lemma callback_schedule_and_disabling_witness :
  (num_cback_calls (opts_ Scripted.silent) < 1)%Z
  /\ exists out, Solve Scripted.silent Scripted.quiet = Some out
                 /\ interm_calls out = [].
Proof.
  split; [reflexivity|].
  destruct (Solve Scripted.silent Scripted.quiet) as [out|] eqn:E;
    [|discriminate E].
  exists out. split; [reflexivity|].
  exact (proj2 (proj2 (@callback_schedule_and_disabling
                         Q _ _ Scripted.silent Scripted.quiet))
               eq_refl out E).
Defined.

(** Against C2 as stated: with [num_cback_calls = 1], which is less than 2,
    the intermediate callback is called, in the last iteration. *)
Lemma callback_disabling_counterexample :
  (num_cback_calls (opts_ Scripted.single_call) < 2)%Z
  /\ exists out call,
      Solve Scripted.single_call Scripted.quiet = Some out
      /\ interm_calls out = [call]
      /\ call_iteration call = 1%Z.
Proof.
  split; [reflexivity|].
  eexists. eexists. split; [vm_compute; reflexivity|].
  split; reflexivity.
Qed.

Lemma dualization_restored_witness :
  solve_dual_problem (opts_ Scripted.dual_solver) = true
  /\ exists s1 out,
      Initialize Scripted.dual_solver = inr s1
      /\ Solve s1 Scripted.quiet = Some out
      /\ problem_ s1 = Scripted.MkProblem 3 2 true
      /\ x0 (opts_ s1) = [2%Q; 3%Q] /\ y0 (opts_ s1) = [1%Q]
      /\ problem_ (solver_after out) = Scripted.MkProblem 2 3 false
      /\ opts_ (solver_after out) = opts_ Scripted.dual_solver.
Proof.
  split; [reflexivity|].
  destruct (Initialize Scripted.dual_solver) as [e|s1] eqn:Ei;
    [discriminate Ei|].
  destruct (Solve s1 Scripted.quiet) as [out|] eqn:Es.
  - destruct (@dualization_restored Q _ _ Scripted.dual_solver s1
                                   Scripted.quiet out eq_refl Ei Es)
      as (p0 & Hp0 & Hp1 & Hx & Hy & _ & Hback & Ho & _).
    injection Hp0 as <-.
    exists s1, out.
    split; [reflexivity|]. split; [exact Es|]. split; [exact Hp1|].
    split; [exact Hx|]. split; [exact Hy|].
    split; [exact (Hback Scripted_dualize_exchanges) | exact Ho].
  - exfalso. injection Ei as <-. vm_compute in Es. discriminate Es.
Defined.

Lemma EvalProx_checks_size_witness :
  exists result st',
    EvalProx 2 Scripted.eval_prox_args (Scripted.state0 Scripted.quiet)
    = (Normal [mxDoubleMatrix 3 1 result; mxDoubleMatrix 1 1 [0%Q]], st')
    /\ List.length result = 3%nat
    /\ firstn 3 result = [0%Q; (1 # 2)%Q; 1%Q].
Proof.
  exact (proj2 (proj2 (proj2
           (@EvalProx_checks_size Q _ _ 2%Z Scripted.eval_prox_args
                                  (Scripted.state0 Scripted.quiet))))
           (mxDoubleMatrix 1 1 [3%Q]) 3%nat
           [(- (3 # 10))%Q; (1 # 2)%Q; (17 # 10)%Q]
           (mxDoubleMatrix 1 1 [1%Q]) 1%Q 1%nat 1%nat []
           3%nat 1%nat [1%Q; 1%Q; 1%Q] [] 3%nat 3%nat
           [0%Q; (1 # 2)%Q; 1%Q] 0%Q
           eq_refl eq_refl ltac:(discriminate) eq_refl eq_refl
           (le_n 3) eq_refl eq_refl eq_refl eq_refl (le_n 3)).
Defined.

Lemma SolveProblem_returns_struct_witness :
  exists x y z w st',
    SolveProblem 1 Scripted.solve_problem_args (Scripted.state0 Scripted.quiet)
    = (Normal [mxStructMatrix
                 [("x"%string, x); ("y"%string, y); ("z"%string, z);
                  ("w"%string, w); ("result"%string, mxString "Converged.")]],
       st')
    /\ mxGetDimensions x = (3, 1)%nat /\ mxGetDimensions y = (2, 1)%nat
    /\ mxGetDimensions z = (2, 1)%nat /\ mxGetDimensions w = (3, 1)%nat.
Proof.
  destruct (SolveProblem 1 Scripted.solve_problem_args
                         (Scripted.state0 Scripted.quiet))
    as [[plhs| | |] st'] eqn:E;
    [|vm_compute in E; discriminate E ..].
  destruct (@SolveProblem_returns_struct Q _ _ 1%Z Scripted.solve_problem_args
              (Scripted.state0 Scripted.quiet) st' plhs E)
    as (problem & backend & opts & solver & h & out & x & y & z & w
        & _ & _ & Hp & _).
  vm_compute in E. injection E as E1 E2. subst plhs st'.
  injection Hp as Hx Hy Hz Hw Hr.
  do 5 eexists. split; [reflexivity|]. repeat split.
Defined.

(** Against C5 as stated: the struct that [solve_problem] returns has the
    fields x, y, z, w, result; none is named Kx or result_string. *)
Lemma SolveProblem_fields_counterexample :
  exists fields st',
    SolveProblem 1 Scripted.solve_problem_args (Scripted.state0 Scripted.quiet)
    = (Normal [mxStructMatrix fields], st')
    /\ map fst fields = ["x"; "y"; "z"; "w"; "result"]%string
    /\ ~ In "Kx"%string (map fst fields)
    /\ ~ In "result_string"%string (map fst fields).
Proof.
  eexists. eexists. split; [vm_compute; reflexivity|].
  split; [reflexivity|].
  split; cbn; intros [E|[E|[E|[E|[E|[]]]]]]; discriminate E.
Qed.
End Scripted_runs.

(* ================================================================== *)
(** * Further properties of the 1D prox functions *)

Section MoreScalarFacts.
Open Scope Q_scope.

Lemma Abs_cases (x tau alpha beta : Q) :
  (tau <= x /\ Function1DAbs x tau alpha beta = x - tau)
  \/ (x < tau /\ x <= - tau /\ Function1DAbs x tau alpha beta = x + tau)
  \/ (x < tau /\ - tau < x /\ Function1DAbs x tau alpha beta = 0).
Proof.
  unfold Function1DAbs. cbn.
  destruct (Qle_bool tau x) eqn:E1.
  - left. split; [apply Qle_bool_iff; assumption | reflexivity].
  - apply Qle_bool_false in E1. right.
    destruct (Qle_bool x (- tau)) eqn:E2.
    + left. repeat split; [assumption | apply Qle_bool_iff; assumption].
    + apply Qle_bool_false in E2. right. repeat split; assumption.
Qed.

Lemma MaxPos0_cases (x tau alpha beta : Q) :
  (tau < x /\ Function1DMaxPos0 x tau alpha beta = x - tau)
  \/ (x <= tau /\ x < 0 /\ Function1DMaxPos0 x tau alpha beta = x)
  \/ (x <= tau /\ 0 <= x /\ Function1DMaxPos0 x tau alpha beta = 0).
Proof.
  unfold Function1DMaxPos0. cbn.
  destruct (Qltb tau x) eqn:E1.
  - left. split; [apply Qltb_true; assumption | reflexivity].
  - apply Qltb_false in E1. right.
    destruct (Qltb x 0) eqn:E2.
    + left. repeat split; [assumption | apply Qltb_true; assumption].
    + apply Qltb_false in E2. right. repeat split; assumption.
Qed.
End MoreScalarFacts.

(** X1: for a step [tau >= 0] the soft threshold [Function1DAbs] is monotone
    and non-expansive: for [x <= y] the outputs differ by at least 0 and at
    most [y - x]; and it is odd. *)
Theorem Function1DAbs_nonexpansive :
  forall x y tau alpha beta : Q,
    (0 <= tau)%Q -> (x <= y)%Q ->
    (0 <= Function1DAbs y tau alpha beta - Function1DAbs x tau alpha beta)%Q
    /\ (Function1DAbs y tau alpha beta - Function1DAbs x tau alpha beta
        <= y - x)%Q
    /\ (Function1DAbs (- x) tau alpha beta == - Function1DAbs x tau alpha beta)%Q.
Proof.
  intros x y tau alpha beta Ht Hxy.
  destruct (Abs_cases x tau alpha beta) as [[X1 ->]|[(X1 & X2 & ->)|(X1 & X2 & ->)]];
  destruct (Abs_cases y tau alpha beta) as [[Y1 ->]|[(Y1 & Y2 & ->)|(Y1 & Y2 & ->)]];
  destruct (Abs_cases (- x) tau alpha beta)
    as [[Z1 ->]|[(Z1 & Z2 & ->)|(Z1 & Z2 & ->)]];
  repeat split; lra.
Qed.

Lemma Function1DAbs_nonexpansive_witness :
  (0 <= 1 # 2)%Q /\ (1 # 4 <= 3)%Q
  /\ (Function1DAbs 3 (1 # 2) 0 0 - Function1DAbs (1 # 4) (1 # 2) 0 0
      <= 3 - (1 # 4))%Q.
Proof.
  split; [discriminate|]. split; [discriminate|].
  apply (@Function1DAbs_nonexpansive (1 # 4) 3 (1 # 2) 0 0);
    discriminate.
Defined.

(** X2: for a step [tau >= 0], [Function1DMaxPos0] takes away from [x0] its
    projection onto [[0, tau]]: the result is [x0 - clamp 0 tau x0]; it never
    changes the sign of [x0] and never moves it by more than [tau]. *)
Theorem Function1DMaxPos0_decomposition :
  forall x0 tau alpha beta : Q,
    (0 <= tau)%Q ->
    (Function1DMaxPos0 x0 tau alpha beta == x0 - clamp 0 tau x0)%Q
    /\ (0 <= x0 - Function1DMaxPos0 x0 tau alpha beta <= tau)%Q.
Proof.
  intros x0 tau alpha beta Ht.
  destruct (MaxPos0_cases x0 tau alpha beta)
    as [[X1 ->]|[(X1 & X2 & ->)|(X1 & X2 & ->)]].
  - rewrite clamp_above by lra. split; lra.
  - rewrite clamp_below by lra. split; lra.
  - rewrite clamp_inside by lra. split; lra.
Qed.

Lemma Function1DMaxPos0_decomposition_witness :
  (0 <= 2)%Q
  /\ (Function1DMaxPos0 5 2 0 0 == 5 - clamp 0 2 5)%Q.
Proof.
  split; [discriminate|].
  apply (@Function1DMaxPos0_decomposition 5 2 0 0). discriminate.
Defined.

(** X3: hard thresholding [Function1DL0] returns its input or zero and, for
    one step size, is idempotent; this holds for every scalar type, the
    floating-point ones included.  In exact arithmetic the input is kept
    exactly when its square exceeds [2 tau]. *)
Theorem Function1DL0_keeps_or_kills :
  (forall (T : Type) (S : Scalar T) (x0 tau alpha beta alpha' beta' : T),
      (Function1DL0 x0 tau alpha beta = x0
       \/ Function1DL0 x0 tau alpha beta = s_zero)
      /\ Function1DL0 (Function1DL0 x0 tau alpha beta) tau alpha' beta'
         = Function1DL0 x0 tau alpha beta)
  /\ (forall x0 tau alpha beta : Q,
         ((2 * tau < x0 * x0)%Q -> Function1DL0 x0 tau alpha beta = x0)
         /\ ((x0 * x0 <= 2 * tau)%Q -> Function1DL0 x0 tau alpha beta = 0%Q)).
Proof.
  split.
  - intros T S x0 tau alpha beta alpha' beta'. unfold Function1DL0.
    destruct (s_ltb (s_mul s_two tau) (s_mul x0 x0)) eqn:E.
    + split; [left; reflexivity|]. rewrite E. reflexivity.
    + split; [right; reflexivity|].
      destruct (s_ltb (s_mul s_two tau) (s_mul s_zero s_zero)); reflexivity.
  - intros x0 tau alpha beta. unfold Function1DL0, s_two. cbn.
    destruct (Qltb ((1 + 1) * tau) (x0 * x0)) eqn:E.
    + split; [reflexivity|]. intro L. apply Qltb_true in E. lra.
    + split; [|reflexivity]. intro L. apply Qltb_false in E. lra.
Qed.

Lemma Function1DL0_keeps_or_kills_witness :
  (2 * 1 < 3 * 3)%Q /\ Function1DL0 3%Q 1%Q 0%Q 0%Q = 3%Q.
Proof.
  split; [reflexivity|].
  apply (proj2 Function1DL0_keeps_or_kills 3%Q 1%Q 0%Q 0%Q). reflexivity.
Defined.

Section HuberFacts.
Open Scope Q_scope.

Lemma s_abs_Q (t : Q) : (t < 0 /\ s_abs t = - t) \/ (0 <= t /\ s_abs t = t).
Proof.
  unfold s_abs. cbn. destruct (Qltb t 0) eqn:E.
  - left. split; [apply Qltb_true; assumption | reflexivity].
  - right. split; [apply Qltb_false; assumption | reflexivity].
Qed.

Lemma s_max_Q (a b : Q) : (a < b /\ s_max a b = b) \/ (b <= a /\ s_max a b = a).
Proof.
  unfold s_max. cbn. destruct (Qltb a b) eqn:E.
  - left. split; [apply Qltb_true; assumption | reflexivity].
  - right. split; [apply Qltb_false; assumption | reflexivity].
Qed.

(** The quotient that [Function1DHuber] computes first. *)
Lemma Huber_quotient (x0 tau alpha : Q) :
  0 < tau -> 0 <= alpha ->
  x0 / tau / (1 + alpha / tau) == x0 / (tau + alpha).
Proof.
  intros Ht Ha. field. repeat split; lra.
Qed.

(** The closed form of [Function1DHuber]. *)
Lemma Huber_closed_form (x0 tau alpha beta : Q) :
  0 < tau -> 0 <= alpha ->
  (tau + alpha <= x0 -> Function1DHuber x0 tau alpha beta == x0 - tau)
  /\ (x0 <= - (tau + alpha) -> Function1DHuber x0 tau alpha beta == x0 + tau)
  /\ (- (tau + alpha) <= x0 <= tau + alpha ->
      Function1DHuber x0 tau alpha beta == x0 * alpha / (tau + alpha)).
Proof.
  intros Ht Ha. unfold Function1DHuber. cbv zeta.
  cbn [s_sub s_mul s_div s_add s_one Scalar_Q].
  pose proof (Huber_quotient x0 Ht Ha) as Hq.
  set (t := x0 / tau / (1 + alpha / tau)) in *.
  assert (Hd : 0 < tau + alpha) by lra.
  assert (Hone : (tau + alpha) / (tau + alpha) == 1) by (field; lra).
  assert (Hmone : (- (tau + alpha)) / (tau + alpha) == - (1)) by (field; lra).
  assert (G1 : tau + alpha <= x0 -> 1 <= t).
  { intro L. rewrite Hq, <- Hone. apply Qdiv_le_pos; assumption. }
  assert (G2 : x0 <= tau + alpha -> t <= 1).
  { intro L. rewrite Hq, <- Hone. apply Qdiv_le_pos; assumption. }
  assert (G3 : x0 <= - (tau + alpha) -> t <= - (1)).
  { intro L. rewrite Hq, <- Hmone. apply Qdiv_le_pos; assumption. }
  assert (G4 : - (tau + alpha) <= x0 -> - (1) <= t).
  { intro L. rewrite Hq, <- Hmone. apply Qdiv_le_pos; assumption. }
  destruct (s_max_Q 1 (s_abs t)) as [[M1 M2]|[M1 M2]]; rewrite M2;
    destruct (s_abs_Q t) as [[A1 A2]|[A1 A2]]; rewrite A2 in *.
  - (* t < -1 *)
    split; [intro Hx; apply G1 in Hx; lra|].
    split; [|intros [Hx _]; apply G4 in Hx; lra].
    intros _. setoid_replace (t / - t) with (- (1)) by (field; lra). ring.
  - (* 1 < t *)
    split; [|split; [intro Hx; apply G3 in Hx; lra
                    |intros [_ Hx]; apply G2 in Hx; lra]].
    intros _. setoid_replace (t / t) with 1 by (field; lra). ring.
  - (* -1 <= t < 0 *)
    setoid_replace (t / 1) with t by (field; lra).
    split; [intro Hx; apply G1 in Hx; lra|].
    split.
    + intro Hx. apply G3 in Hx.
      assert (E : t == - (1)) by lra. rewrite E. ring.
    + intros _. rewrite Hq. field. lra.
  - (* 0 <= t <= 1 *)
    setoid_replace (t / 1) with t by (field; lra).
    split.
    + intro Hx. apply G1 in Hx.
      assert (E : t == 1) by lra. rewrite E. ring.
    + split; [intro Hx; apply G3 in Hx; lra|].
      intros _. rewrite Hq. field. lra.
Qed.
End HuberFacts.

(** X4: for [tau > 0] and [alpha >= 0], [Function1DHuber] moves [x0] by
    [tau] towards zero outside [[-(tau + alpha), tau + alpha]] and scales it
    by [alpha / (tau + alpha)] inside; with [alpha = 0] it is the soft
    threshold [Function1DAbs]. *)
Theorem Function1DHuber_closed_form :
  forall x0 tau alpha beta : Q,
    (0 < tau)%Q -> (0 <= alpha)%Q ->
    ((tau + alpha <= x0)%Q ->
     (Function1DHuber x0 tau alpha beta == x0 - tau)%Q)
    /\ ((x0 <= - (tau + alpha))%Q ->
        (Function1DHuber x0 tau alpha beta == x0 + tau)%Q)
    /\ ((- (tau + alpha) <= x0 <= tau + alpha)%Q ->
        (Function1DHuber x0 tau alpha beta == x0 * alpha / (tau + alpha))%Q)
    /\ (forall alpha' beta' : Q,
           (Function1DHuber x0 tau 0 beta
            == Function1DAbs x0 tau alpha' beta')%Q).
Proof.
  intros x0 tau alpha beta Ht Ha.
  destruct (Huber_closed_form x0 beta Ht Ha) as (C1 & C2 & C3).
  split; [exact C1|]. split; [exact C2|]. split; [exact C3|].
  intros alpha' beta'.
  destruct (Huber_closed_form x0 beta Ht (Qle_refl 0)) as (D1 & D2 & D3).
  destruct (Abs_cases x0 tau alpha' beta')
    as [[X1 ->]|[(X1 & X2 & ->)|(X1 & X2 & ->)]].
  - rewrite D1 by lra. reflexivity.
  - rewrite D2 by lra. reflexivity.
  - rewrite D3 by lra. field. lra.
Qed.

Lemma Function1DHuber_closed_form_witness :
  (0 < 1)%Q /\ (0 <= 1)%Q /\ (- (1 + 1) <= 1 <= 1 + 1)%Q
  /\ (Function1DHuber 1 1 1 0 == 1 * 1 / (1 + 1))%Q.
Proof.
  split; [reflexivity|]. split; [discriminate|].
  split; [split; discriminate|].
  apply (@Function1DHuber_closed_form 1 1 1 0)%Q;
    [reflexivity | discriminate | split; discriminate].
Defined.

(** X5: the square is its own conjugate: for [tau > 0] the Moreau formula
    around [Function1DSquare], run with the inner step [1 / tau], gives
    [Function1DSquare] at step [tau] again. *)
Theorem Moreau_square_is_square :
  forall v tau alpha beta alpha' beta' : Q,
    (0 < tau)%Q ->
    (MoreauFormula Function1DSquare v tau 1 alpha beta
     == Function1DSquare v tau alpha' beta')%Q.
Proof.
  intros v tau alpha beta alpha' beta' Ht.
  unfold MoreauFormula, Function1DSquare. cbn.
  field. repeat split; lra.
Qed.

Lemma Moreau_square_is_square_witness :
  (0 < 3)%Q
  /\ (MoreauFormula Function1DSquare 2 3 1 0 0 == Function1DSquare 2 3 0 0)%Q.
Proof.
  split; [reflexivity|].
  apply (@Moreau_square_is_square 2 3 0 0 0 0)%Q. reflexivity.
Defined.

(** X6: each indicator function is the projection onto its set: no point of
    the set is nearer to [x0] than the output. *)
Theorem indicators_are_projections :
  forall x0 z tau alpha beta : Q,
    ((z <= 0)%Q ->
     (Qabs (Function1DIndLeq0 x0 tau alpha beta - x0) <= Qabs (z - x0))%Q)
    /\ ((0 <= z)%Q ->
        (Qabs (Function1DIndGeq0 x0 tau alpha beta - x0) <= Qabs (z - x0))%Q)
    /\ ((z == 0)%Q ->
        (Qabs (Function1DIndEq0 x0 tau alpha beta - x0) <= Qabs (z - x0))%Q)
    /\ ((0 <= z <= 1)%Q ->
        (Qabs (Function1DIndBox01 x0 tau alpha beta - x0) <= Qabs (z - x0))%Q).
Proof.
  intros x0 z tau alpha beta.
  assert (A : forall r : Q,
             ((r - x0 <= z - x0 /\ 0 <= r - x0)
              \/ (z - x0 <= r - x0 /\ r - x0 <= 0))%Q ->
             (Qabs (r - x0) <= Qabs (z - x0))%Q).
  { intros r [[L1 L2]|[L1 L2]].
    - rewrite (Qabs_pos (r - x0)) by assumption.
      rewrite (Qabs_pos (z - x0)) by lra. assumption.
    - rewrite (Qabs_neg (r - x0)) by assumption.
      rewrite (Qabs_neg (z - x0)) by lra. lra. }
  repeat split.
  - intro Hz. apply A.
    destruct (IndLeq0_cases x0 tau alpha beta) as [[C ->]|[C ->]]; lra.
  - intro Hz. apply A.
    destruct (IndGeq0_cases x0 tau alpha beta) as [[C ->]|[C ->]]; lra.
  - intro Hz. change (Function1DIndEq0 x0 tau alpha beta) with 0%Q.
    apply (A 0%Q). destruct (Qlt_le_dec x0 0); [left | right]; lra.
  - intro Hz. apply A.
    destruct (IndBox01_cases x0 tau alpha beta) as [[C ->]|[[C ->]|[C ->]]]; lra.
Qed.

Lemma indicators_are_projections_witness :
  (0 <= 1 # 3 <= 1)%Q
  /\ (Qabs (Function1DIndBox01 2 1 0 0 - 2) <= Qabs ((1 # 3) - 2))%Q.
Proof.
  split; [split; discriminate|].
  apply (@indicators_are_projections 2 (1 # 3) 1 0 0)%Q. split; discriminate.
Defined.

(** X7: the indicator functions compose as their sets intersect: projecting
    onto the non-negative and then onto the non-positive numbers (or the
    other way round) gives zero, as [Function1DIndEq0] does; projecting
    onto the non-negative numbers and then onto [[0, 1]] is
    [Function1DIndBox01], which is the clamp to [[0, 1]]. *)
Theorem indicators_compose :
  forall x0 tau alpha beta : Q,
    (Function1DIndLeq0 (Function1DIndGeq0 x0 tau alpha beta) tau alpha beta
     == Function1DIndEq0 x0 tau alpha beta)%Q
    /\ (Function1DIndGeq0 (Function1DIndLeq0 x0 tau alpha beta) tau alpha beta
        == Function1DIndEq0 x0 tau alpha beta)%Q
    /\ (Function1DIndBox01 (Function1DIndGeq0 x0 tau alpha beta) tau alpha beta
        == Function1DIndBox01 x0 tau alpha beta)%Q
    /\ (Function1DIndBox01 x0 tau alpha beta == clamp 0 1 x0)%Q.
Proof.
  intros x0 tau alpha beta.
  change (Function1DIndEq0 x0 tau alpha beta) with 0%Q.
  repeat split.
  - destruct (IndGeq0_cases x0 tau alpha beta) as [[C ->]|[C ->]];
      match goal with
      | |- (Function1DIndLeq0 ?y _ _ _ == _)%Q =>
          destruct (IndLeq0_cases y tau alpha beta) as [[D ->]|[D ->]]
      end; lra.
  - destruct (IndLeq0_cases x0 tau alpha beta) as [[C ->]|[C ->]];
      match goal with
      | |- (Function1DIndGeq0 ?y _ _ _ == _)%Q =>
          destruct (IndGeq0_cases y tau alpha beta) as [[D ->]|[D ->]]
      end; lra.
  - destruct (IndGeq0_cases x0 tau alpha beta) as [[C ->]|[C ->]];
      [|reflexivity].
    destruct (IndBox01_cases 0%Q tau alpha beta) as [[D ->]|[[D ->]|[D ->]]];
      destruct (IndBox01_cases x0 tau alpha beta) as [[E ->]|[[E ->]|[E ->]]];
      lra.
  - destruct (IndBox01_cases x0 tau alpha beta) as [[E ->]|[[E ->]|[E ->]]].
    + rewrite clamp_above by lra. reflexivity.
    + rewrite clamp_below by lra. reflexivity.
    + rewrite clamp_inside by lra. reflexivity.
Qed.

(* ================================================================== *)
(** * The index range of a prox *)

(** X8: a prox of size at least 1 whose range fits [size_t] covers the
    indices [index() .. end()], [size()] of them; for a prox of size 0
    [end()] lies just before [index()], and wraps around to the largest
    [size_t] when the prox starts at index 0.  Copying a prox keeps its
    range. *)
Theorem Prox_end_range :
  forall (bits : Z) (p : ProxRange.Prox),
    ProxRange.well_formed bits p ->
    ProxRange.copy p = p
    /\ ((1 <= ProxRange.size p)%Z ->
        (ProxRange.index p + ProxRange.size p <= 2 ^ bits)%Z ->
        (ProxRange.index p <= ProxRange.Prox_end bits p < 2 ^ bits)%Z
        /\ (ProxRange.Prox_end bits p - ProxRange.index p + 1
            = ProxRange.size p)%Z)
    /\ (ProxRange.size p = 0%Z -> (1 <= ProxRange.index p)%Z ->
        ProxRange.Prox_end bits p = (ProxRange.index p - 1)%Z)
    /\ (ProxRange.size p = 0%Z -> ProxRange.index p = 0%Z ->
        ProxRange.Prox_end bits p = (2 ^ bits - 1)%Z).
Proof.
  intros bits [i n d] [Hi Hn].
  unfold ProxRange.copy, ProxRange.index, ProxRange.size, ProxRange.Prox_end.
  cbn in *. split; [reflexivity|]. split; [|split].
  - intros H1 H2. rewrite Z.mod_small by lia. lia.
  - intros -> H1. rewrite Z.mod_small by lia. lia.
  - intros -> ->. cbn. symmetry.
    apply (Z.mod_unique (-1) (2 ^ bits) (-1) (2 ^ bits - 1)); lia.
Qed.

Lemma Prox_end_range_witness :
  ProxRange.well_formed 64 (ProxRange.MkProx 0 0 false)
  /\ ProxRange.Prox_end 64 (ProxRange.MkProx 0 0 false)
     = 18446744073709551615%Z.
Proof.
  assert (W : ProxRange.well_formed 64 (ProxRange.MkProx 0 0 false))
    by (split; split; cbn; lia).
  split; [exact W|].
  exact (proj2 (proj2 (proj2 (@Prox_end_range 64 _ W))) eq_refl eq_refl).
Defined.

(* ================================================================== *)
(** * Further properties of the solver *)

Module SolverMore.
Import Solver Run SolverFacts.

Section Facts.
Context {T : Type} `{Scalar T} `{Collaborators T}.

Lemma resize_length (v : list T) (n : nat) : List.length (resize v n) = n.
Proof.
  unfold resize. rewrite length_app, length_firstn, repeat_length. lia.
Qed.

(** The loop states that [Solve] reaches are determined by the number of
    iterations. *)
Lemma reaches_functional (s : Solver) (h : Host) (k : nat) (st1 st2 : LoopState) :
  reaches s h k st1 -> reaches s h k st2 -> st1 = st2.
Proof.
  intro R1. revert st2.
  induction R1 as [|k st st' R1 IH Hlt Hb]; intros st2 R2.
  - inversion R2. reflexivity.
  - inversion R2 as [|k0 sta stb Ra Hlta Hba]; subst.
    apply IH in Ra. subst sta. congruence.
Qed.

(** Every iteration before a state that is reached went on without a
    [break]. *)
Lemma reaches_prefix (s : Solver) (h : Host) (n : nat) (st' : LoopState) :
  reaches s h n st' ->
  forall k, (k < n)%nat ->
            exists st st1, reaches s h k st
                           /\ Solve_body (Z.of_nat k) st = BodyNext st1.
Proof.
  induction 1 as [|m st st' R IH Hlt Hb]; intros k Hk; [lia|].
  destruct (Nat.eq_dec k m) as [->|Hne].
  - exists st, st'. split; assumption.
  - apply IH. lia.
Qed.

Lemma StronglySorted_snoc (l : list Z) (a : Z) :
  StronglySorted Z.lt l -> Forall (fun x => x < a)%Z l ->
  StronglySorted Z.lt (l ++ [a]).
Proof.
  induction l as [|x l IH]; intros Hs Hf; cbn.
  - constructor; constructor.
  - inversion Hs as [|x0 l0 Hs' Hx]; subst.
    inversion Hf as [|x1 l1 Hxa Hf']; subst.
    constructor; [apply IH; assumption|].
    apply Forall_app. split; [assumption | constructor; [assumption | constructor]].
Qed.

Lemma calls_numbered_snoc (k : Z) (l : list Z) :
  (0 <= k)%Z ->
  calls_numbered k l -> calls_numbered (k + 1) (l ++ [(k + 1)%Z]).
Proof.
  intros Hk [Hs Hf]. split.
  - apply StronglySorted_snoc; [assumption|].
    eapply Forall_impl; [|exact Hf]. cbn. intros; lia.
  - apply Forall_app. split.
    + eapply Forall_impl; [|exact Hf]. cbn. intros; lia.
    + constructor; [lia | constructor].
Qed.

Lemma calls_numbered_weaken (k k' : Z) (l : list Z) :
  (k <= k')%Z -> calls_numbered k l -> calls_numbered k' l.
Proof.
  intros Hk [Hs Hf]. split; [assumption|].
  eapply Forall_impl; [|exact Hf]. cbn. intros; lia.
Qed.

(** What one iteration does to the log of calls and to [cb_iters]: either a
    call numbered [i + 1] is logged and the front of [cb_iters] popped, or
    the log stays and [cb_iters] does not grow. *)
Lemma Solve_iteration_calls (i : Z) (st : LoopState) (e : IterationEnd) :
  Solve_iteration i st = Some e ->
  (ls_calls (state_end e) = ls_calls st
   /\ (List.length (ls_cb_iters (state_end e))
       <= List.length (ls_cb_iters st))%nat)
  \/ (exists c, ls_calls (state_end e) = ls_calls st ++ [c]
                /\ call_iteration c = (i + 1)%Z
                /\ S (List.length (ls_cb_iters (state_end e)))
                   = List.length (ls_cb_iters st)).
Proof.
  intro Hit. open_iteration Hit.
  - right. eexists. repeat split.
  - right. eexists. repeat split.
  - left. split; [reflexivity | cbn; lia].
  - left. split; [reflexivity | lia].
Qed.

(** The invariant of the log along the loop. *)
Lemma reaches_calls (s : Solver) (h : Host) (k : nat) (st : LoopState) :
  reaches s h k st ->
  calls_numbered (Z.of_nat k) (call_numbers (ls_calls st))
  /\ (List.length (ls_calls st) + List.length (ls_cb_iters st)
      <= List.length (callback_schedule (opts_ s)))%nat.
Proof.
  induction 1 as [|k st st' R IH Hlt Hb].
  - split; [split; constructor | cbn; lia].
  - pose proof (Solve_body_cases (Z.of_nat k) st) as C. rewrite Hb in C.
    destruct C as (e & Hit & -> & _).
    destruct IH as [In Il].
    destruct (Solve_iteration_calls _ _ Hit) as [[Ec El]|(c & Ec & En & El)].
    + rewrite Ec. split; [|lia].
      apply (calls_numbered_weaken (k := Z.of_nat k)); [lia | assumption].
    + rewrite Ec. split.
      * unfold call_numbers. rewrite map_app. cbn [map]. rewrite En.
        rewrite Nat2Z.inj_succ. unfold Z.succ.
        apply calls_numbered_snoc; [lia | assumption].
      * rewrite length_app. cbn [List.length]. lia.
Qed.

(** The same for the state an iteration leaves behind. *)
Lemma iteration_calls (s : Solver) (h : Host) (k : nat) (e : IterationEnd) :
  iteration s h k e ->
  calls_numbered (Z.of_nat (S k)) (call_numbers (ls_calls (state_end e)))
  /\ (List.length (ls_calls (state_end e))
      <= List.length (callback_schedule (opts_ s)))%nat.
Proof.
  intros (st & R & Hlt & Hit).
  destruct (reaches_calls R) as [In Il].
  destruct (Solve_iteration_calls _ _ Hit) as [[Ec El]|(c & Ec & En & El)].
  - rewrite Ec. split; [|lia].
    apply (calls_numbered_weaken (k := Z.of_nat k)); [lia | assumption].
  - rewrite Ec. split.
    + unfold call_numbers. rewrite map_app. cbn [map]. rewrite En.
      rewrite Nat2Z.inj_succ. unfold Z.succ.
      apply calls_numbered_snoc; [lia | assumption].
    + rewrite length_app. cbn [List.length]. lia.
Qed.

(** The state in which the loop of [Solve] ends. *)
Lemma Solve_final (s : Solver) (h : Host) (out : SolveOutcome) :
  Solve s h = Some out ->
  exists st',
    Solve_loop (Z.to_nat (max_iters (opts_ s))) 0%Z (initial s h)
    = Some (result out, st')
    /\ interm_calls out = ls_calls st'
    /\ host_after out = ls_host st'
    /\ backend_ (solver_after out) = backend_ (ls_solver st')
    /\ cur_primal_sol (solver_after out) = cur_primal_sol (ls_solver st')
    /\ cur_dual_sol (solver_after out) = cur_dual_sol (ls_solver st')
    /\ cur_primal_constr_sol (solver_after out)
       = cur_primal_constr_sol (ls_solver st')
    /\ cur_dual_constr_sol (solver_after out)
       = cur_dual_constr_sol (ls_solver st').
Proof.
  unfold Solve. fold (initial s h).
  destruct (Solve_loop _ _ _) as [[r st']|]; intro E; [|discriminate E].
  injection E as <-. exists st'. cbn [result interm_calls host_after solver_after].
  split; [reflexivity|]. split; [reflexivity|]. split; [reflexivity|].
  unfold cur_primal_sol, cur_dual_sol, cur_primal_constr_sol, cur_dual_constr_sol.
  destruct (solve_dual_problem (opts_ (ls_solver st'))) eqn:D;
    cbn; rewrite ?D; repeat split; reflexivity.
Qed.

(** An iteration that stops, converges or is the last one hands the current
    solution to the intermediate callback when [num_cback_calls >= 1], in
    the orientation of the accessors. *)
Lemma Solve_iteration_final_call (i : Z) (st : LoopState) (e : IterationEnd) :
  Solve_iteration i st = Some e ->
  (1 <= num_cback_calls (opts_ (ls_solver st)))%Z ->
  is_stopped e = true \/ is_converged e = true
  \/ i = (max_iters (opts_ (ls_solver st)) - 1)%Z ->
  exists c, ls_calls (state_end e) = ls_calls st ++ [c]
            /\ call_iteration c = (i + 1)%Z
            /\ call_x c = cur_primal_sol (ls_solver (state_end e))
            /\ call_y c = cur_dual_sol (ls_solver (state_end e)).
Proof.
  intros Hit Hn Hfin.
  unfold cur_primal_sol, cur_dual_sol.
  open_iteration Hit.
  - eexists. split; [reflexivity|]. cbn.
    match goal with D : solve_dual_problem _ = _ |- _ => rewrite D end.
    repeat split.
  - eexists. split; [reflexivity|]. cbn.
    match goal with D : solve_dual_problem _ = _ |- _ => rewrite D end.
    repeat split.
  - exfalso.
    match goal with D : (1 <=? _)%Z = false |- _ => apply Z.leb_gt in D; lia end.
  - exfalso.
    match goal with D : callback_due _ _ _ _ _ = false |- _ =>
      unfold callback_due in D; apply orb_false_iff in D; destruct D as [D D3];
      apply orb_false_iff in D; destruct D as [D D2];
      apply orb_false_iff in D; destruct D as [D0 D1]
    end.
    cbn [is_stopped is_converged] in Hfin.
    destruct Hfin as [F|[F|F]].
    + congruence.
    + destruct (residuals_converged _); [discriminate D1 | discriminate F].
    + apply Z.eqb_neq in D3. contradiction.
Qed.


(** An iteration advances the backend by one [PerformIteration] on the
    problem of the solver. *)
Lemma Solve_iteration_backend (i : Z) (st : LoopState) (e : IterationEnd) :
  Solve_iteration i st = Some e ->
  backend_ (ls_solver (state_end e))
  = PerformIteration (problem_ (ls_solver st)) (backend_ (ls_solver st)).
Proof.
  intro Hit. open_iteration Hit; reflexivity.
Qed.

Lemma reaches_backend (s : Solver) (h : Host) (k : nat) (st : LoopState) :
  reaches s h k st ->
  backend_ (ls_solver st)
  = Nat.iter k (PerformIteration (problem_ s)) (backend_ s).
Proof.
  induction 1 as [|k st st' R IH Hlt Hb]; [reflexivity|].
  pose proof (Solve_body_cases (Z.of_nat k) st) as C. rewrite Hb in C.
  destruct C as (e & Hit & -> & _).
  rewrite (Solve_iteration_backend _ _ Hit).
  destruct (reaches_frame R) as (-> & _). rewrite IH. reflexivity.
Qed.

End Facts.
End SolverMore.

Section SolverExtras.
Import Solver Run SolverFacts SolverMore.
Context {T : Type} `{Scalar T} `{Collaborators T}.

(** X9: [Solve] never reads the front of an empty [cb_iters]: its behaviour
    is defined, and it returns, whenever a schedule was asked for
    ([num_cback_calls >= 2]) or at most 1e8 + 1 iterations are allowed. *)
Theorem Solve_never_underflows :
  forall (s : Solver) (h : Host),
    (2 <= num_cback_calls (opts_ s) \/ max_iters (opts_ s) <= 100000001)%Z ->
    exists out, Solve s h = Some out
                /\ (result out = kConverged \/ result out = kStoppedMaxIters
                    \/ result out = kStoppedUser).
Proof.
  intros s h Hc. destruct (Solve_defined s h Hc) as [out E].
  exists out. split; [exact E|]. destruct (result out); auto.
Qed.

(** X10: with [max_iters <= 0] [Solve] performs no iteration: it returns
    [kStoppedMaxIters] at once, calls neither callback and leaves the
    backend, the host and the solution vectors as they are. *)
Theorem Solve_without_iterations :
  forall (s : Solver) (h : Host),
    (max_iters (opts_ s) <= 0)%Z ->
    exists out,
      Solve s h = Some out
      /\ result out = kStoppedMaxIters
      /\ interm_calls out = []
      /\ host_after out = h
      /\ backend_ (solver_after out) = backend_ s
      /\ cur_primal_sol (solver_after out) = cur_primal_sol s
      /\ cur_dual_sol (solver_after out) = cur_dual_sol s.
Proof.
  intros s h Hm.
  assert (E : Solve_loop (Z.to_nat (max_iters (opts_ s))) 0%Z (initial s h)
              = Some (kStoppedMaxIters, initial s h)).
  { replace (Z.to_nat (max_iters (opts_ s))) with O by lia. reflexivity. }
  destruct (Solve s h) as [out|] eqn:Es.
  - destruct (Solve_final _ _ Es) as (st' & L & Hc & Hh & Hb & Hp & Hd & _).
    rewrite E in L. injection L as L1 L2. subst st'.
    exists out. split; [reflexivity|]. split; [symmetry; exact L1|].
    split; [exact Hc|]. split; [exact Hh|]. split; [exact Hb|].
    split; [exact Hp | exact Hd].
  - exfalso. unfold Solve in Es. fold (initial s h) in Es. rewrite E in Es.
    discriminate Es.
Qed.

(** X11: [Solve] returns [kStoppedMaxIters] exactly when none of the
    iterations it runs is stopped by the user or declared converged; it has
    then run all [max_iters] iterations. *)
Theorem StoppedMaxIters_iff :
  forall (s : Solver) (h : Host) (out : SolveOutcome),
    Solve s h = Some out ->
    (result out = kStoppedMaxIters <->
     forall k e, iteration s h k e ->
                 is_stopped e = false /\ is_converged e = false)
    /\ (result out = kStoppedMaxIters ->
        exists st, reaches s h (Z.to_nat (max_iters (opts_ s))) st
                   /\ interm_calls out = ls_calls st).
Proof.
  intros s h out Es.
  destruct (Solve_final _ _ Es) as (st' & L & Hc & _).
  pose proof (@Solve_loop_from _ _ _ s h (Z.to_nat (max_iters (opts_ s))) 0
                               (initial s h) (reaches_start s h)
                               ltac:(lia) (result out) st' L) as C.
  split; [split|].
  - intros R k e (st & Rk & Hlt & Hit). rewrite R in C. cbn in C.
    destruct (reaches_prefix C (k := k) ltac:(lia)) as (st1 & st2 & R1 & Hb).
    rewrite (reaches_functional Rk R1) in Hit.
    rewrite (Solve_body_of_iteration _ _ Hit) in Hb. unfold Solve_break in Hb.
    destruct (is_stopped e); [discriminate Hb|].
    destruct (is_converged e); [discriminate Hb|]. split; reflexivity.
  - intro Hall. destruct (result out); [|reflexivity|].
    + destruct C as (k' & e & Hi & _ & _ & Ec).
      destruct (Hall _ _ Hi) as [_ Ec']. congruence.
    + destruct C as (k' & e & Hi & _ & Esd).
      destruct (Hall _ _ Hi) as [Es' _]. congruence.
  - intro R. rewrite R in C. cbn in C. exists st'. split; assumption.
Qed.

(** X12: the calls of the intermediate callback are numbered with the
    iterations they come from, counted from 1: the numbers increase
    strictly and none exceeds [max_iters]; and the callback is called at
    most [num_cback_calls] times. *)
Theorem interm_calls_numbered :
  forall (s : Solver) (h : Host) (out : SolveOutcome),
    Solve s h = Some out ->
    calls_numbered (max_iters (opts_ s)) (call_numbers (interm_calls out))
    /\ (List.length (interm_calls out)
        <= Z.to_nat (num_cback_calls (opts_ s)))%nat.
Proof.
  intros s h out Es.
  destruct (Solve_final _ _ Es) as (st' & L & Hc & _). rewrite Hc.
  pose proof (@Solve_loop_from _ _ _ s h (Z.to_nat (max_iters (opts_ s))) 0
                               (initial s h) (reaches_start s h)
                               ltac:(lia) (result out) st' L) as C.
  assert (B : calls_numbered (max_iters (opts_ s)) (call_numbers (ls_calls st'))
              /\ (List.length (ls_calls st')
                  <= List.length (callback_schedule (opts_ s)))%nat).
  { destruct (result out).
    - destruct C as (k' & e & Hi & -> & _).
      destruct (iteration_calls Hi) as [In Il]. split; [|exact Il].
      destruct Hi as (st & _ & Hlt & _).
      apply (calls_numbered_weaken (k := Z.of_nat (S k'))); [lia | exact In].
    - cbn in C. destruct (reaches_calls C) as [In Il]. split; [|lia].
      destruct (call_numbers (ls_calls st')) as [|n l] eqn:En;
        [split; constructor|].
      apply (calls_numbered_weaken (k := Z.of_nat (Z.to_nat (max_iters (opts_ s)))));
        [|exact In].
      destruct In as [_ Hf]. inversion Hf; subst. lia.
    - destruct C as (k' & e & Hi & -> & _).
      destruct (iteration_calls Hi) as [In Il]. split; [|exact Il].
      destruct Hi as (st & _ & Hlt & _).
      apply (calls_numbered_weaken (k := Z.of_nat (S k'))); [lia | exact In]. }
  destruct B as [Bn Bl]. split; [exact Bn|].
  destruct (Z.ltb_spec (num_cback_calls (opts_ s)) 1) as [Hn|Hn].
  - apply Solve_loop_no_calls in L; [|exact Hn]. rewrite L. cbn. lia.
  - unfold callback_schedule in Bl.
    destruct (Z.leb_spec 2 (num_cback_calls (opts_ s))).
    + rewrite linspace_length in Bl. exact Bl.
    + cbn in Bl. lia.
Qed.
End SolverExtras.

Section SolverReports.
Import Solver Run SolverFacts SolverMore.
Context {T : Type} `{Scalar T} `{Collaborators T}.

(** X13: with [num_cback_calls >= 1] and [max_iters >= 1] the intermediate
    callback is called in the iteration that ends [Solve] (by convergence, by
    a user stop or as the last one), and the [x] and [y] it receives there
    are what [cur_primal_sol] and [cur_dual_sol] return once [Solve] is
    back, in the orientation of the original problem. *)
Theorem final_solution_reported :
  forall (s : Solver) (h : Host) (out : SolveOutcome),
    (1 <= num_cback_calls (opts_ s))%Z ->
    (1 <= max_iters (opts_ s))%Z ->
    Solve s h = Some out ->
    exists calls c,
      interm_calls out = calls ++ [c]
      /\ call_x c = cur_primal_sol (solver_after out)
      /\ call_y c = cur_dual_sol (solver_after out)
      /\ (1 <= call_iteration c <= max_iters (opts_ s))%Z.
Proof.
  intros s h out Hn Hm Es.
  destruct (Solve_final _ _ Es) as (st' & L & Hc & _ & _ & Hp & Hd & _).
  rewrite Hc, Hp, Hd.
  pose proof (@Solve_loop_from _ _ _ s h (Z.to_nat (max_iters (opts_ s))) 0
                               (initial s h) (reaches_start s h)
                               ltac:(lia) (result out) st' L) as C.
  assert (F : exists k e, iteration s h k e /\ st' = state_end e
                          /\ (is_stopped e = true \/ is_converged e = true
                              \/ Z.of_nat k = (max_iters (opts_ s) - 1)%Z)).
  { destruct (result out).
    - destruct C as (k' & e & Hi & E & _ & Ec). exists k', e. auto.
    - cbn in C. destruct (Z.to_nat (max_iters (opts_ s))) as [|k] eqn:Ek; [lia|].
      inversion C as [|k0 st0 st1 R Hlt Hb]; subst.
      pose proof (Solve_body_cases (Z.of_nat k) st0) as B. rewrite Hb in B.
      destruct B as (e & Hit & E & _).
      exists k, e. split; [exists st0; repeat split; assumption|].
      split; [exact E|]. right. right. lia.
    - destruct C as (k' & e & Hi & E & Esd). exists k', e. auto. }
  destruct F as (k & e & (st & R & Hlt & Hit) & -> & Hfin).
  destruct (reaches_frame R) as (_ & Fo & _).
  destruct (@Solve_iteration_final_call _ _ _ _ _ _ Hit) as (c & Ec & En & Ex & Ey).
  - rewrite Fo. exact Hn.
  - rewrite Fo. exact Hfin.
  - exists (ls_calls st), c. rewrite En. repeat split; try assumption; lia.
Qed.

(** X14: when [Initialize] succeeds, the four solution vectors have the
    sizes of the problem the solver then holds: [ncols] for the primal
    solution and for K^T y, [nrows] for the dual solution and for Kx.  When it
    fails, the problem or the backend failed to initialise, and the message
    is the one of that failure behind a prefix that names the part. *)
Theorem Initialize_outcomes :
  forall (s : Solver),
    match Initialize s with
    | inr s1 =>
        List.length (cur_primal_sol_ s1) = Problem_ncols (problem_ s1)
        /\ List.length (cur_primal_constr_sol_ s1) = Problem_nrows (problem_ s1)
        /\ List.length (cur_dual_sol_ s1) = Problem_nrows (problem_ s1)
        /\ List.length (cur_dual_constr_sol_ s1) = Problem_ncols (problem_ s1)
        /\ solve_dual_problem (opts_ s1) = solve_dual_problem (opts_ s)
    | inl e =>
        (exists e0, Problem_Initialize (problem_ s) = inl e0
                    /\ what e = String.append
                                  "Failed to initialize the problem. Reason: "
                                  (what e0))
        \/ (exists p0 p o e1,
               Problem_Initialize (problem_ s) = inr p0
               /\ Backend_Initialize p o (backend_ s) = inl e1
               /\ what e = String.append
                             "Failed to initialize the backend. Reason: "
                             (what e1))
    end.
Proof.
  intro s. unfold Initialize.
  destruct (Problem_Initialize (problem_ s)) as [e0|p0].
  - left. exists e0. split; reflexivity.
  - destruct (Backend_Initialize _ _ (backend_ s)) as [e1|b] eqn:Eb.
    + right. do 4 eexists. split; [reflexivity|]. split; [exact Eb | reflexivity].
    + cbn [cur_primal_sol_ cur_primal_constr_sol_ cur_dual_sol_
             cur_dual_constr_sol_ problem_ opts_].
      rewrite !resize_length. repeat split.
      destruct (solve_dual_problem (opts_ s)) eqn:D; cbn; rewrite ?D; reflexivity.
Qed.
End SolverReports.

(* ================================================================== *)
(** * Further properties of the MEX layer *)

Module MexMore.
Import Mex MexFacts.

Section Facts.
Context {T : Type} `{Scalar T} `{Collaborators T}.
Open Scope mex_scope.

Lemma select_device_spec (st : MexState) :
  select_device st
  = (if cudaSetDevice_succeeds (current_gpu_device st)
     then Normal tt
     else Thrown (MkException "Invalid CUDA device."),
     selected st).
Proof.
  unfold select_device, cudaSetDevice, cudaDeviceReset, emit, bind, throw, ret,
    selected.
  cbn [current_gpu_device host trace].
  destruct (cudaSetDevice_succeeds (current_gpu_device st)); reflexivity.
Qed.

Lemma select_device_Normal (st st1 : MexState) (u : unit) :
  select_device st = (Normal u, st1) ->
  cudaSetDevice_succeeds (current_gpu_device st) = true /\ st1 = selected st.
Proof.
  rewrite select_device_spec.
  destruct (cudaSetDevice_succeeds (current_gpu_device st)); intro E;
    [|discriminate E].
  injection E as _ <-. split; reflexivity.
Qed.

Lemma cmd_reg_names :
  map fst cmd_reg
  = ["eval_linop"; "eval_prox"; "init"; "list_gpus"; "release"; "set_gpu";
     "solve_problem"]%string.
Proof. reflexivity. Qed.

Lemma cmd_reg_NoDup : NoDup (map fst cmd_reg).
Proof.
  rewrite cmd_reg_names.
  repeat (constructor; [cbn; intuition discriminate|]). constructor.
Qed.

(** The loop over a registry runs the command stored under [name] and
    reports that a command was executed. *)
Lemma run_command_found (reg : list (string * Command)) (name : string)
      (f : Command) (nlhs : Z) (args : list (mxArray T)) (st : MexState) :
  NoDup (map fst reg) -> In (name, f) reg ->
  run_command reg name nlhs args st
  = bind (f nlhs args) (fun plhs => ret (true, plhs)) st.
Proof.
  induction reg as [|[n g] reg IH]; intros Hnd Hin; [contradiction|].
  cbn [map fst] in Hnd. inversion Hnd as [|x l Hni Hnd']; subst.
  cbn [run_command]. destruct Hin as [E|Hin].
  - injection E as -> ->. rewrite String.eqb_refl. reflexivity.
  - destruct (String.eqb_spec n name) as [->|Hne].
    + exfalso. apply Hni. apply (in_map fst) in Hin. exact Hin.
    + apply IH; assumption.
Qed.


(** [mexFunction] on a command name and its arguments. *)
Lemma mexFunction_dispatch (nlhs : Z) (cmd : string) (args : list (mxArray T))
      (st : MexState) :
  mexFunction nlhs (mxString cmd :: args) st
  = match dispatch cmd nlhs args st with
    | (Thrown e, st') => (HostError (what e), reported (what e) st')
    | other => other
    end.
Proof.
  unfold mexFunction. cbn [List.length Nat.eqb tl].
  unfold bind at 1. cbn [ret]. unfold bind at 1. cbn [prhs_at nth_error of_option ret].
  unfold bind at 1. cbn [mxArrayToString ret].
  unfold try_catch.
  destruct (dispatch cmd nlhs args st) as [[plhs|e|msg|] st']; reflexivity.
Qed.

(** The blocks of a cell array, created in the order of the cells. *)
Lemma add_blocks_spec :
  forall (n i : nat) (m k : nat) (cells : list (mxArray T))
         (acc blocks : list Block) (st : MexState),
    Forall2 (fun c b => CreateBlock c = inr b) (firstn n (skipn i cells)) blocks ->
    (i + n <= List.length cells)%nat ->
    add_blocks (mxCell m k cells) i n acc st = (Normal (acc ++ blocks), st).
Proof.
  induction n as [|n IH]; intros i m k cells acc blocks st Hf Hl.
  - cbn in Hf. inversion Hf. cbn. rewrite app_nil_r. reflexivity.
  - destruct (skipn i cells) as [|c rest] eqn:Es.
    { exfalso. apply (f_equal (@List.length _)) in Es.
      rewrite length_skipn in Es. cbn in Es. lia. }
    cbn [firstn] in Hf. inversion Hf as [|c0 b0 l0 bs Hc Hf']; subst.
    assert (En : nth_error cells i = Some c).
    { rewrite <- (firstn_skipn i cells) at 1.
      rewrite nth_error_app2 by (rewrite length_firstn; lia).
      rewrite length_firstn, Es.
      replace (i - Nat.min i (List.length cells))%nat with O by lia.
      reflexivity. }
    assert (Er : skipn (S i) cells = rest).
    { change (S i) with (1 + i)%nat. rewrite <- skipn_skipn, Es. reflexivity. }
    cbn [add_blocks]. unfold bind at 1. cbn [mxGetCell]. rewrite En.
    cbn [of_option ret]. unfold bind at 1. rewrite Hc. cbn [call ret].
    rewrite (IH (S i) m k cells (acc ++ [b0]) bs st); [|rewrite Er; exact Hf'|lia].
    rewrite <- app_assoc. reflexivity.
Qed.

(** A name that [cmd_reg] holds runs the command stored under it. *)
Lemma mexFunction_registered (name : string) (f : Command) (nlhs : Z)
      (args : list (mxArray T)) (st : MexState) :
  In (name, f) cmd_reg ->
  mexFunction nlhs (mxString name :: args) st
  = match f nlhs args st with
    | (Thrown e, st') => (HostError (what e), reported (what e) st')
    | other => other
    end.
Proof.
  intro Hin.
  rewrite mexFunction_dispatch. unfold dispatch. unfold bind at 1.
  erewrite run_command_found; [|exact cmd_reg_NoDup|exact Hin].
  unfold bind. destruct (f nlhs args st) as [[plhs|e|msg|] st']; reflexivity.
Qed.

Lemma EvalProx_invalid_device (nlhs : Z) (prhs : list (mxArray T))
      (st : MexState) :
  cudaSetDevice_succeeds (current_gpu_device st) = false ->
  (4 <= List.length prhs)%nat -> nlhs <> 0%Z ->
  EvalProx nlhs prhs st
  = (Thrown (MkException "Invalid CUDA device."), selected st).
Proof.
  intros Hdev Hl Hn. unfold EvalProx.
  destruct (Nat.ltb_spec (List.length prhs) 4); [lia|].
  destruct (Z.eqb_spec nlhs 0); [contradiction|].
  unfold bind at 1. rewrite select_device_spec, Hdev. reflexivity.
Qed.

End Facts.
End MexMore.

Section MexExtras.
Import Mex MexFacts MexMore.
Context {T : Type} `{Scalar T} `{Collaborators T}.

(** X15: no [prost::Exception] leaves [mexFunction]: whatever the inputs,
    the call does not end by throwing one (it returns, ends in
    [mexErrMsgTxt], or reads an argument that is not there). *)
Theorem mexFunction_never_throws :
  forall (nlhs : Z) (prhs : list (mxArray T)) (st st' : MexState)
         (e : Exception),
    mexFunction nlhs prhs st <> (Thrown e, st').
Proof.
  intros nlhs prhs st st' e.
  destruct prhs as [|a0 args]; [discriminate|].
  destruct a0 as [m n pr|cmd|fields|m n cells|id]; try discriminate.
  rewrite mexFunction_dispatch.
  destruct (dispatch cmd nlhs args st) as [[plhs|e0|msg|] st0]; discriminate.
Qed.


(** X17: a name that [cmd_reg] holds runs the command registered under it,
    on the arguments after the name: the call ends as the command ends,
    except that an exception of the command becomes the host error with its
    message. *)
Theorem registered_command_runs :
  forall (name : string) (f : Command) (nlhs : Z) (args : list (mxArray T))
         (st : MexState),
    In (name, f) cmd_reg ->
    mexFunction nlhs (mxString name :: args) st
    = match f nlhs args st with
      | (Thrown e, st') => (HostError (what e), reported (what e) st')
      | other => other
      end.
Proof.
  intros name f nlhs args st Hin. apply mexFunction_registered. exact Hin.
Qed.

(** X18: when the selected device cannot be set, [solve_problem] (whatever
    its arguments), [eval_prox] (past its two argument checks) and
    [eval_linop] (past its two argument checks) throw
    "Invalid CUDA device."; the device has been reset all the same, and no
    argument has been looked at. *)
Theorem invalid_device_throws :
  forall (nlhs : Z) (prhs : list (mxArray T)) (st : MexState),
    cudaSetDevice_succeeds (current_gpu_device st) = false ->
    SolveProblem nlhs prhs st
    = (Thrown (MkException "Invalid CUDA device."), selected st)
    /\ ((4 <= List.length prhs)%nat -> nlhs <> 0%Z ->
        EvalProx nlhs prhs st
        = (Thrown (MkException "Invalid CUDA device."), selected st))
    /\ (List.length prhs = 3%nat -> (3 <= nlhs)%Z ->
        EvalLinOp nlhs prhs st
        = (Thrown (MkException "Invalid CUDA device."),
           selected (MkMexState (current_gpu_device st) (host st)
                                (trace st ++ [EvResetConstMem])))).
Proof.
  intros nlhs prhs st Hdev. split; [|split].
  - unfold SolveProblem. unfold bind at 1.
    rewrite select_device_spec, Hdev. reflexivity.
  - intros Hl Hn. apply EvalProx_invalid_device; assumption.
  - intros Hl Hn. unfold EvalLinOp. unfold bind at 1.
    unfold ResetConstMem, emit. rewrite Hl. cbn [Nat.eqb negb].
    destruct (Z.ltb_spec nlhs 3); [lia|].
    unfold bind at 1. rewrite select_device_spec.
    cbn [current_gpu_device]. rewrite Hdev. reflexivity.
Qed.

End MexExtras.

Section MexExtras_runs.
Import Mex.

Lemma mexFunction_never_throws_witness :
  mexFunction (T := Q) 1 [mxString "eval_prox"] (Scripted.state0 Scripted.quiet)
  <> (Thrown (MkException "eval_prox: At least four inputs required."),
      Scripted.state0 Scripted.quiet).
Proof.
  apply (@mexFunction_never_throws Q _ _).
Defined.


Lemma registered_command_runs_witness :
  In ("init"%string, Init (T := Q)) cmd_reg
  /\ mexFunction (T := Q) 0 [mxString "init"] (Scripted.state0 Scripted.quiet)
     = (Normal [], MkMexState 0 Scripted.quiet [EvMexLock]).
Proof.
  assert (Hin : In ("init"%string, Init (T := Q)) cmd_reg)
    by (right; right; left; reflexivity).
  split; [exact Hin|].
  rewrite (@registered_command_runs Q _ _ "init"%string Init 0%Z []
                                    (Scripted.state0 Scripted.quiet) Hin).
  reflexivity.
Defined.

Lemma invalid_device_throws_witness :
  cudaSetDevice_succeeds (current_gpu_device (MkMexState 1 Scripted.quiet []))
  = false
  /\ SolveProblem (T := Q) 1 [] (MkMexState 1 Scripted.quiet [])
     = (Thrown (MkException "Invalid CUDA device."),
        MkMexState 1 Scripted.quiet [EvCudaSetDevice 1; EvCudaDeviceReset]).
Proof.
  split; [reflexivity|].
  exact (proj1 (@invalid_device_throws Q _ _ 1%Z []
                  (MkMexState 1 Scripted.quiet []) eq_refl)).
Defined.
End MexExtras_runs.

Section SolverExtras_runs.
Import Solver Run.

Lemma Solve_never_underflows_witness :
  (max_iters (opts_ Scripted.silent) <= 100000001)%Z
  /\ exists out, Solve Scripted.silent Scripted.quiet = Some out.
Proof.
  split; [discriminate|].
  destruct (@Solve_never_underflows Q _ _ Scripted.silent Scripted.quiet)
    as (out & E & _).
  - right. discriminate.
  - exists out. exact E.
Defined.

Lemma Solve_without_iterations_witness :
  (max_iters (opts_ (Scripted.solver 2 3 [] (Scripted.options 0 1 false))) <= 0)%Z
  /\ exists out,
      Solve (Scripted.solver 2 3 [] (Scripted.options 0 1 false))
            Scripted.interrupted = Some out
      /\ result out = kStoppedMaxIters
      /\ interm_calls out = []
      /\ host_after out = Scripted.interrupted.
Proof.
  split; [discriminate|].
  destruct (@Solve_without_iterations
              Q _ _ (Scripted.solver 2 3 [] (Scripted.options 0 1 false))
              Scripted.interrupted)
    as (out & E & R & C & Hh & _).
  - discriminate.
  - exists out. repeat split; assumption.
Defined.

Lemma StoppedMaxIters_iff_witness :
  exists out,
    Solve Scripted.silent Scripted.quiet = Some out
    /\ (result out = kStoppedMaxIters <->
        forall k e, iteration Scripted.silent Scripted.quiet k e ->
                    is_stopped e = false /\ is_converged e = false).
Proof.
  destruct (Solve Scripted.silent Scripted.quiet) as [out|] eqn:E;
    [|vm_compute in E; discriminate E].
  exists out. split; [reflexivity|].
  exact (proj1 (@StoppedMaxIters_iff Q _ _ Scripted.silent Scripted.quiet out E)).
Defined.

Lemma interm_calls_numbered_witness :
  exists out,
    Solve Scripted.single_call Scripted.quiet = Some out
    /\ calls_numbered 1 (call_numbers (interm_calls out))
    /\ (List.length (interm_calls out) <= 1)%nat.
Proof.
  destruct (Solve Scripted.single_call Scripted.quiet) as [out|] eqn:E;
    [|vm_compute in E; discriminate E].
  exists out. split; [reflexivity|].
  exact (@interm_calls_numbered Q _ _ Scripted.single_call Scripted.quiet out E).
Defined.

Lemma final_solution_reported_witness :
  (1 <= num_cback_calls (opts_ Scripted.single_call))%Z
  /\ (1 <= max_iters (opts_ Scripted.single_call))%Z
  /\ exists out calls c,
      Solve Scripted.single_call Scripted.quiet = Some out
      /\ interm_calls out = calls ++ [c]
      /\ call_x c = cur_primal_sol (solver_after out)
      /\ call_y c = cur_dual_sol (solver_after out).
Proof.
  split; [discriminate|]. split; [discriminate|].
  destruct (Solve Scripted.single_call Scripted.quiet) as [out|] eqn:E;
    [|vm_compute in E; discriminate E].
  destruct (@final_solution_reported Q _ _ Scripted.single_call Scripted.quiet
                                     out ltac:(discriminate) ltac:(discriminate) E)
    as (calls & c & Hc & Hx & Hy & _).
  exists out, calls, c. repeat split; assumption.
Defined.
End SolverExtras_runs.

Section LinOpExtras.
Import Mex MexFacts MexMore.
Context {T : Type} `{Scalar T} `{Collaborators T}.

(** X19: the loop of [eval_linop] over the cells of its first argument
    creates one block for each of the first [dims[0]] cells and adds them in
    the order of the cells. *)
Theorem add_blocks_in_order :
  forall (m k : nat) (cells : list (mxArray T)) (blocks : list Block)
         (st : MexState),
    (m <= List.length cells)%nat ->
    Forall2 (fun c b => CreateBlock c = inr b) (firstn m cells) blocks ->
    add_blocks (mxCell m k cells) 0 m [] st = (Normal blocks, st)
    /\ List.length blocks = m.
Proof.
  intros m k cells blocks st Hm Hf. split.
  - apply (add_blocks_spec m 0 m k cells [] st); [exact Hf | lia].
  - apply Forall2_length in Hf. rewrite length_firstn in Hf. lia.
Qed.

(** The state of [eval_linop] once the device is selected. *)
Lemma EvalLinOp_selected (st : MexState) :
  selected (MkMexState (current_gpu_device st) (host st)
                       (trace st ++ [EvResetConstMem]))
  = MkMexState (current_gpu_device st) (host st)
               (((trace st ++ [EvResetConstMem])
                 ++ [EvCudaSetDevice (current_gpu_device st)])
                ++ [EvCudaDeviceReset]).
Proof. reflexivity. Qed.

(** [eval_linop] up to the point where the right-hand side is read. *)
Lemma EvalLinOp_reads (nlhs : Z) (st : MexState) (m k : nat)
      (cells : list (mxArray T)) (blocks : list Block)
      (rows : nat) (pr : list T) (fm fn : nat) (v : T) (pr2 : list T)
      (linop : LinearOperator) :
  (3 <= nlhs)%Z ->
  cudaSetDevice_succeeds (current_gpu_device st) = true ->
  (m <= List.length cells)%nat ->
  Forall2 (fun c b => CreateBlock c = inr b) (firstn m cells) blocks ->
  LinearOperator_Initialize blocks = inr linop ->
  let transpose := s_ltb s_zero v in
  let nrows := LinearOperator_nrows linop in
  let ncols := LinearOperator_ncols linop in
  let st1 := selected (MkMexState (current_gpu_device st) (host st)
                                  (trace st ++ [EvResetConstMem])) in
  EvalLinOp nlhs [mxCell m k cells; mxDoubleMatrix rows 1 pr;
                  mxDoubleMatrix fm fn (v :: pr2)] st
  = bind (read_pr (mxDoubleMatrix rows 1 pr) (if transpose then nrows else ncols))
         (fun rhs =>
            bind (call (if transpose then LinearOperator_EvalAdjoint linop rhs
                        else LinearOperator_Eval linop rhs))
                 (fun '(res, time) =>
                    bind (copy_to_column res (if transpose then ncols else nrows))
                         (fun plhs0 =>
                            ret [plhs0;
                                 mxDoubleMatrix nrows 1
                                   (map (fun row => LinearOperator_row_sum linop row)
                                        (seq 0 nrows));
                                 mxDoubleMatrix ncols 1
                                   (map (fun col => LinearOperator_col_sum linop col)
                                        (seq 0 ncols));
                                 mxDoubleMatrix 1 1 [time]])))
         st1.
Proof.
  intros Hn Hdev Hm Hf Hi transpose nrows ncols st1.
  unfold EvalLinOp. unfold bind at 1. unfold ResetConstMem, emit.
  cbn [List.length Nat.eqb negb].
  destruct (Z.ltb_spec nlhs 3); [lia|].
  unfold bind at 1. rewrite select_device_spec.
  cbn [current_gpu_device]. rewrite Hdev.
  unfold bind at 1. cbn [prhs_at nth_error of_option ret].
  cbn [mxGetDimensions fst snd].
  unfold bind at 1.
  erewrite add_blocks_spec; [|exact Hf|lia]. cbn [app].
  unfold bind at 1. cbn [prhs_at nth_error of_option ret].
  unfold bind at 1. cbn [mxGetScalar ret].
  unfold bind at 1. cbn [prhs_at nth_error of_option ret Nat.eqb negb].
  unfold bind at 1. rewrite Hi. cbn [call ret].
  reflexivity.
Qed.

(** X20: [eval_linop] with three inputs, at least three outputs, a device
    that can be selected, blocks that can be created and initialised, a
    right-hand side column of enough entries and an evaluation that succeeds
    returns four arrays: the result ([nrows] x 1, or [ncols] x 1 when the
    transpose flag is positive), the row sums ([nrows] x 1), the column sums
    ([ncols] x 1) and the time (1 x 1). *)
Theorem EvalLinOp_returns_four :
  forall (nlhs : Z) (st : MexState) (m k : nat) (cells : list (mxArray T))
         (blocks : list Block) (rows : nat) (pr : list T) (fm fn : nat)
         (v : T) (pr2 : list T) (linop : LinearOperator)
         (res : list T) (time : T),
    (3 <= nlhs)%Z ->
    cudaSetDevice_succeeds (current_gpu_device st) = true ->
    (m <= List.length cells)%nat ->
    Forall2 (fun c b => CreateBlock c = inr b) (firstn m cells) blocks ->
    LinearOperator_Initialize blocks = inr linop ->
    let transpose := s_ltb s_zero v in
    let nrows := LinearOperator_nrows linop in
    let ncols := LinearOperator_ncols linop in
    let n_in := if transpose then nrows else ncols in
    let n_out := if transpose then ncols else nrows in
    (n_in <= List.length pr)%nat ->
    (if transpose then LinearOperator_EvalAdjoint linop (firstn n_in pr)
     else LinearOperator_Eval linop (firstn n_in pr)) = inr (res, time) ->
    (List.length res <= n_out)%nat ->
    exists result rowsum colsum st',
      EvalLinOp nlhs [mxCell m k cells; mxDoubleMatrix rows 1 pr;
                      mxDoubleMatrix fm fn (v :: pr2)] st
      = (Normal [mxDoubleMatrix n_out 1 result; mxDoubleMatrix nrows 1 rowsum;
                 mxDoubleMatrix ncols 1 colsum; mxDoubleMatrix 1 1 [time]], st')
      /\ List.length result = n_out
      /\ firstn (List.length res) result = res
      /\ List.length rowsum = nrows /\ List.length colsum = ncols.
Proof.
  intros nlhs st m k cells blocks rows pr fm fn v pr2 linop res time
         Hn Hdev Hm Hf Hi transpose nrows ncols n_in n_out Hin Hev Hres.
  rewrite (@EvalLinOp_reads nlhs st m k cells blocks rows pr fm fn v pr2 linop
                            Hn Hdev Hm Hf Hi).
  fold transpose nrows ncols n_in n_out.
  unfold bind at 1. unfold read_pr.
  destruct (Nat.leb_spec n_in (List.length pr)); [|lia]. cbn [ret].
  unfold bind at 1.
  assert (Hc : call (if transpose
                     then LinearOperator_EvalAdjoint linop (firstn n_in pr)
                     else LinearOperator_Eval linop (firstn n_in pr))
               = ret (res, time)).
  { destruct transpose; rewrite Hev; reflexivity. }
  rewrite Hc. cbn [ret]. unfold bind at 1. unfold copy_to_column.
  destruct (Nat.leb_spec (List.length res) n_out); [|lia]. cbn [ret].
  do 4 eexists. split; [reflexivity|].
  split; [apply padded_length; assumption|].
  split; [rewrite firstn_app, Nat.sub_diag, firstn_all; apply app_nil_r|].
  rewrite !length_map, !length_seq. split; reflexivity.
Qed.

(** X21: [eval_linop] checks that the right-hand side is a column but not
    how long it is: under the conditions above, a column with fewer entries
    than the operator has columns (rows, when transposed) is read past its
    end. *)
Theorem EvalLinOp_reads_past_rhs :
  forall (nlhs : Z) (st : MexState) (m k : nat) (cells : list (mxArray T))
         (blocks : list Block) (rows : nat) (pr : list T) (fm fn : nat)
         (v : T) (pr2 : list T) (linop : LinearOperator),
    (3 <= nlhs)%Z ->
    cudaSetDevice_succeeds (current_gpu_device st) = true ->
    (m <= List.length cells)%nat ->
    Forall2 (fun c b => CreateBlock c = inr b) (firstn m cells) blocks ->
    LinearOperator_Initialize blocks = inr linop ->
    (List.length pr
     < (if s_ltb s_zero v then LinearOperator_nrows linop
        else LinearOperator_ncols linop))%nat ->
    fst (EvalLinOp nlhs [mxCell m k cells; mxDoubleMatrix rows 1 pr;
                         mxDoubleMatrix fm fn (v :: pr2)] st)
    = Undefined.
Proof.
  intros nlhs st m k cells blocks rows pr fm fn v pr2 linop
         Hn Hdev Hm Hf Hi Hshort.
  rewrite (@EvalLinOp_reads nlhs st m k cells blocks rows pr fm fn v pr2 linop
                            Hn Hdev Hm Hf Hi).
  unfold bind at 1. unfold read_pr.
  destruct (Nat.leb_spec
              (if s_ltb s_zero v then LinearOperator_nrows linop
               else LinearOperator_ncols linop) (List.length pr)); [lia|].
  reflexivity.
Qed.
End LinOpExtras.

Section SolveProblemExtras.
Import Mex MexFacts MexMore.
Context {T : Type} `{Scalar T} `{Collaborators T}.

Lemma emit_Normal (ev : Event) (st st1 : MexState) (u : unit) :
  emit ev st = (Normal u, st1) ->
  st1 = MkMexState (current_gpu_device st) (host st) (trace st ++ [ev]).
Proof. unfold emit. intro E. injection E as _ <-. reflexivity. Qed.

(** X22: a normal return of [solve_problem] means that at least five
    arguments were passed and the device could be selected; by then the
    device was set and reset, the constant memory was reset and the solver
    was released, in this order and with nothing else, and the selected
    device is the one the command found. *)
Theorem SolveProblem_normal_return :
  forall (nlhs : Z) (prhs : list (mxArray T)) (st st' : MexState)
         (plhs : list (mxArray T)),
    SolveProblem nlhs prhs st = (Normal plhs, st') ->
    (5 <= List.length prhs)%nat
    /\ cudaSetDevice_succeeds (current_gpu_device st) = true
    /\ current_gpu_device st' = current_gpu_device st
    /\ trace st'
       = trace st ++ [EvCudaSetDevice (current_gpu_device st); EvCudaDeviceReset;
                      EvResetConstMem; EvSolverRelease].
Proof.
  intros nlhs prhs st st' plhs E. unfold SolveProblem in E.
  apply bind_Normal_inv in E as (u0 & s0 & H0' & E).
  apply select_device_Normal in H0' as (Hdev & ->).
  apply bind_Normal_inv in E as (u1 & s1 & H1' & E).
  apply emit_Normal in H1'. subst s1.
  apply bind_Normal_inv in E as (a1 & s2 & H2' & E).
  apply prhs_at_Normal in H2' as (_ & ->).
  apply bind_Normal_inv in E as (v1 & s3 & H3' & E).
  apply mxGetScalar_Normal in H3'. subst s3.
  apply bind_Normal_inv in E as (a2 & s4 & H4' & E).
  apply prhs_at_Normal in H4' as (_ & ->).
  apply bind_Normal_inv in E as (v2 & s5 & H5' & E).
  apply mxGetScalar_Normal in H5'. subst s5.
  apply bind_Normal_inv in E as (a0 & s6 & H6' & E).
  apply prhs_at_Normal in H6' as (_ & ->).
  apply bind_Normal_inv in E as (problem & s7 & H7' & E).
  apply call_Normal in H7' as (_ & ->).
  apply bind_Normal_inv in E as (a3 & s8 & H8' & E).
  apply prhs_at_Normal in H8' as (_ & ->).
  apply bind_Normal_inv in E as (backend & s9 & H9' & E).
  apply call_Normal in H9' as (_ & ->).
  apply bind_Normal_inv in E as (a4 & s10 & H10' & E).
  apply prhs_at_Normal in H10' as (Ha4 & ->).
  apply bind_Normal_inv in E as (opts & s11 & H11' & E).
  apply call_Normal in H11' as (_ & ->).
  apply bind_Normal_inv in E as (solver & s12 & H12' & E).
  apply call_Normal in H12' as (_ & ->).
  apply bind_Normal_inv in E as (out & s13 & Hs & E).
  apply run_Solve_Normal in Hs as (_ & ->).
  apply bind_Normal_inv in E as (y & s14 & Hy & E).
  apply copy_to_column_Normal in Hy as (_ & _ & ->).
  apply bind_Normal_inv in E as (x & s15 & Hx & E).
  apply copy_to_column_Normal in Hx as (_ & _ & ->).
  apply bind_Normal_inv in E as (z & s16 & Hz & E).
  apply copy_to_column_Normal in Hz as (_ & _ & ->).
  apply bind_Normal_inv in E as (w & s17 & Hw & E).
  apply copy_to_column_Normal in Hw as (_ & _ & ->).
  apply bind_Normal_inv in E as (u2 & s18 & Hr & E).
  apply emit_Normal in Hr. subst s18.
  unfold ret in E. injection E as _ <-.
  split.
  - assert (L : (4 < List.length prhs)%nat)
      by (apply nth_error_Some; rewrite Ha4; discriminate).
    lia.
  - split; [exact Hdev|]. split; [reflexivity|].
    cbn [trace selected current_gpu_device host].
    rewrite <- !app_assoc. reflexivity.
Qed.

(** X23: [set_gpu] stores the device number for the commands that follow:
    after [set_gpu(id)] the next [eval_prox] sets the device [id], and when
    that device cannot be set the host is told "Invalid CUDA device.". *)
Theorem set_gpu_then_eval_prox :
  forall (nlhs nlhs' : Z) (m n : nat) (v : T) (pr : list T)
         (args : list (mxArray T)) (st : MexState),
    let st1 := MkMexState (to_int v) (host st) (trace st) in
    mexFunction nlhs [mxString "set_gpu"; mxDoubleMatrix m n (v :: pr)] st
    = (Normal [], st1)
    /\ ((4 <= List.length args)%nat -> nlhs' <> 0%Z ->
        cudaSetDevice_succeeds (to_int v) = false ->
        mexFunction nlhs' (mxString "eval_prox" :: args) st1
        = (HostError "Invalid CUDA device.",
           reported "Invalid CUDA device." (selected st1))
        /\ trace (selected st1)
           = trace st ++ [EvCudaSetDevice (to_int v); EvCudaDeviceReset]).
Proof.
  intros nlhs nlhs' m n v pr args st st1. split.
  - rewrite (@mexFunction_registered _ _ _ "set_gpu"%string SetGPU);
      [reflexivity|].
    do 5 right. left. reflexivity.
  - intros Hl Hn Hdev.
    rewrite (@mexFunction_registered _ _ _ "eval_prox"%string EvalProx);
      [|right; left; reflexivity].
    rewrite (@EvalProx_invalid_device _ _ _ nlhs' args st1 Hdev Hl Hn).
    split; [reflexivity|].
    cbn [selected trace st1 current_gpu_device]. rewrite <- app_assoc.
    reflexivity.
Qed.
End SolveProblemExtras.

Section MexExtras_more_runs.
Import Mex.

Lemma add_blocks_in_order_witness :
  add_blocks (T := Q) (mxCell 2 1 [mxString "a"; mxString "b"]) 0 2 []
             (Scripted.state0 Scripted.quiet)
  = (Normal [tt; tt], Scripted.state0 Scripted.quiet).
Proof.
  apply (@add_blocks_in_order Q _ 2 1 [mxString "a"; mxString "b"]
                              ([tt; tt] : list (@Block Q Scripted.world))
                              (Scripted.state0 Scripted.quiet)).
  - apply le_n.
  - repeat constructor.
Defined.

Lemma EvalLinOp_returns_four_witness :
  exists result rowsum colsum st',
    EvalLinOp (T := Q) 4
      [mxCell 2 1 [mxString "a"; mxString "b"];
       mxDoubleMatrix 2 1 [1%Q; 2%Q]; mxDoubleMatrix 1 1 [0%Q]]
      (Scripted.state0 Scripted.quiet)
    = (Normal [mxDoubleMatrix 2 1 result; mxDoubleMatrix 2 1 rowsum;
               mxDoubleMatrix 2 1 colsum; mxDoubleMatrix 1 1 [0%Q]], st')
    /\ List.length result = 2%nat.
Proof.
  pose proof (@EvalLinOp_returns_four
                Q _ _ 4%Z (Scripted.state0 Scripted.quiet) 2 1
                [mxString "a"; mxString "b"]
                ([tt; tt] : list (@Block Q Scripted.world)) 2 [1%Q; 2%Q] 1 1 0%Q []
                (2%nat : @LinearOperator Q Scripted.world) [1%Q; 2%Q] 0%Q
                ltac:(discriminate) eq_refl (le_n 2)
                ltac:(repeat constructor) eq_refl) as W.
  cbv zeta in W.
  destruct (W (le_n 2) eq_refl (le_n 2))
    as (result & rowsum & colsum & st' & E & L & _).
  exists result, rowsum, colsum, st'. split; [exact E | exact L].
Defined.

Lemma EvalLinOp_reads_past_rhs_witness :
  fst (EvalLinOp (T := Q) 4
         [mxCell 2 1 [mxString "a"; mxString "b"];
          mxDoubleMatrix 1 1 [1%Q]; mxDoubleMatrix 1 1 [0%Q]]
         (Scripted.state0 Scripted.quiet))
  = Undefined.
Proof.
  exact (@EvalLinOp_reads_past_rhs
           Q _ _ 4%Z (Scripted.state0 Scripted.quiet) 2 1
           [mxString "a"; mxString "b"]
           ([tt; tt] : list (@Block Q Scripted.world)) 1 [1%Q] 1 1 0%Q []
           (2%nat : @LinearOperator Q Scripted.world)
           ltac:(discriminate) eq_refl (le_n 2)
           ltac:(repeat constructor) eq_refl (le_n 2)).
Defined.

Lemma SolveProblem_normal_return_witness :
  exists plhs st',
    SolveProblem (T := Q) 1 Scripted.solve_problem_args
                 (Scripted.state0 Scripted.quiet) = (Normal plhs, st')
    /\ trace st' = [EvCudaSetDevice 0; EvCudaDeviceReset; EvResetConstMem;
                    EvSolverRelease].
Proof.
  destruct (SolveProblem 1 Scripted.solve_problem_args
                         (Scripted.state0 Scripted.quiet))
    as [[plhs| | |] st'] eqn:E;
    [|vm_compute in E; discriminate E ..].
  exists plhs, st'. split; [reflexivity|].
  exact (proj2 (proj2 (proj2
           (@SolveProblem_normal_return Q _ _ 1%Z Scripted.solve_problem_args
                                        (Scripted.state0 Scripted.quiet) st' plhs E)))).
Defined.

Lemma set_gpu_then_eval_prox_witness :
  cudaSetDevice_succeeds (T := Q) (to_int 1%Q) = false
  /\ mexFunction (T := Q) 2 (mxString "eval_prox" :: Scripted.eval_prox_args)
                 (MkMexState (to_int 1%Q) Scripted.quiet [])
     = (HostError "Invalid CUDA device.",
        reported "Invalid CUDA device."
                 (selected (MkMexState (to_int 1%Q) Scripted.quiet []))).
Proof.
  split; [reflexivity|].
  apply (proj2 (@set_gpu_then_eval_prox
                  Q _ _ 0%Z 2%Z 1 1 1%Q [] Scripted.eval_prox_args
                  (Scripted.state0 Scripted.quiet)));
    [apply le_n | discriminate | reflexivity].
Defined.
End MexExtras_more_runs.

Section SolverFrame.
Import Solver Run SolverFacts SolverMore.
Context {T : Type} `{Scalar T} `{Collaborators T}.

(** X24: [Solve] changes the backend through [PerformIteration] only, always
    on the problem the solver held on entry: the backend it leaves is the
    one it found, advanced once for each iteration run; there are at most
    [max_iters] of them, exactly [max_iters] when the result is
    [kStoppedMaxIters] and at least one otherwise. *)
Theorem Solve_iterates_backend :
  forall (s : Solver) (h : Host) (out : SolveOutcome),
    Solve s h = Some out ->
    exists k : nat,
      backend_ (solver_after out)
      = Nat.iter k (PerformIteration (problem_ s)) (backend_ s)
      /\ (k <= Z.to_nat (max_iters (opts_ s)))%nat
      /\ (result out = kStoppedMaxIters -> k = Z.to_nat (max_iters (opts_ s)))
      /\ (result out <> kStoppedMaxIters -> (1 <= k)%nat).
Proof.
  intros s h out Es.
  destruct (Solve_final _ _ Es) as (st' & L & _ & _ & Hb & _). rewrite Hb.
  pose proof (@Solve_loop_from _ _ _ s h (Z.to_nat (max_iters (opts_ s))) 0
                               (initial s h) (reaches_start s h)
                               ltac:(lia) (result out) st' L) as C.
  assert (B : forall k e, iteration s h k e ->
                          backend_ (ls_solver (state_end e))
                          = Nat.iter (S k) (PerformIteration (problem_ s)) (backend_ s)
                            /\ (S k <= Z.to_nat (max_iters (opts_ s)))%nat).
  { intros k e (st & R & Hlt & Hit).
    rewrite (Solve_iteration_backend _ _ Hit), (reaches_backend R).
    destruct (reaches_frame R) as (-> & _). split; [reflexivity | lia]. }
  destruct (result out).
  - destruct C as (k' & e & Hi & -> & _). destruct (B _ _ Hi) as [Eb Hk].
    exists (S k'). repeat split; [exact Eb | exact Hk | discriminate | lia].
  - cbn in C. exists (Z.to_nat (max_iters (opts_ s))).
    repeat split; [apply (reaches_backend C) | lia | congruence].
  - destruct C as (k' & e & Hi & -> & _). destruct (B _ _ Hi) as [Eb Hk].
    exists (S k'). repeat split; [exact Eb | exact Hk | discriminate | lia].
Qed.

(** X25: [Solve] leaves the callbacks of the solver alone, and with
    [solve_dual_problem] off also the problem and the options, warm starts
    included. *)
Theorem Solve_keeps_problem_and_options :
  forall (s : Solver) (h : Host) (out : SolveOutcome),
    Solve s h = Some out ->
    stopping_cb_ (solver_after out) = stopping_cb_ s
    /\ interm_cb_ (solver_after out) = interm_cb_ s
    /\ (solve_dual_problem (opts_ s) = false ->
        problem_ (solver_after out) = problem_ s
        /\ opts_ (solver_after out) = opts_ s).
Proof.
  intros s h out Es. unfold Solve in Es. fold (initial s h) in Es.
  destruct (Solve_loop _ _ _) as [[r st']|] eqn:L; [|discriminate Es].
  pose proof (@Solve_loop_from _ _ _ s h (Z.to_nat (max_iters (opts_ s))) 0
                               (initial s h) (reaches_start s h)
                               ltac:(lia) r st' L) as C.
  assert (F : problem_ (ls_solver st') = problem_ s
              /\ opts_ (ls_solver st') = opts_ s
              /\ stopping_cb_ (ls_solver st') = stopping_cb_ s
              /\ interm_cb_ (ls_solver st') = interm_cb_ s).
  { assert (B : forall k e, iteration s h k e ->
                  problem_ (ls_solver (state_end e)) = problem_ s
                  /\ opts_ (ls_solver (state_end e)) = opts_ s
                  /\ stopping_cb_ (ls_solver (state_end e)) = stopping_cb_ s
                  /\ interm_cb_ (ls_solver (state_end e)) = interm_cb_ s).
    { intros k e (st & R & _ & Hit).
      destruct (Solve_iteration_frame _ _ Hit) as (F1 & F2 & F3 & F4).
      destruct (reaches_frame R) as (I1 & I2 & I3 & I4).
      repeat split; congruence. }
    destruct r.
    - destruct C as (k' & e & Hi & -> & _). apply (B _ _ Hi).
    - cbn in C. apply (reaches_frame C).
    - destruct C as (k' & e & Hi & -> & _). apply (B _ _ Hi). }
  destruct F as (Fp & Fo & Fs & Fi).
  injection Es as <-. cbn [solver_after].
  destruct (solve_dual_problem (opts_ (ls_solver st'))) eqn:D;
    cbn [stopping_cb_ interm_cb_ problem_ opts_].
  - split; [exact Fs|]. split; [exact Fi|]. intro Hoff. congruence.
  - split; [exact Fs|]. split; [exact Fi|]. intros _. split; assumption.
Qed.
End SolverFrame.

Section ArgumentChecks.
Import Mex MexFacts MexMore.
Context {T : Type} `{Scalar T} `{Collaborators T}.

(** X26: [eval_prox] turns down an argument that is not a column before it
    looks at the description of the prox: with four inputs, an output and a
    device that can be selected, an argument whose second dimension is not 1
    ends in the exception "Input to prox should be a vector!". *)
Theorem EvalProx_rejects_matrix :
  forall (nlhs : Z) (prhs : list (mxArray T)) (a1 : mxArray T) (st : MexState),
    (4 <= List.length prhs)%nat -> nlhs <> 0%Z ->
    cudaSetDevice_succeeds (current_gpu_device st) = true ->
    nth_error prhs 1 = Some a1 ->
    snd (mxGetDimensions a1) <> 1%nat ->
    EvalProx nlhs prhs st
    = (Thrown (MkException "Input to prox should be a vector!"), selected st).
Proof.
  intros nlhs prhs a1 st Hl Hn Hdev E1 Hd. unfold EvalProx.
  destruct (Nat.ltb_spec (List.length prhs) 4); [lia|].
  destruct (Z.eqb_spec nlhs 0); [contradiction|].
  unfold bind at 1. rewrite select_device_spec, Hdev.
  unfold bind at 1. unfold prhs_at. rewrite E1. cbn [of_option ret].
  destruct (Nat.eqb_spec (snd (mxGetDimensions a1)) 1); [contradiction|].
  reflexivity.
Qed.

(** X27: [eval_linop] checks the number of its inputs first and of its
    outputs next, after it has reset the constant memory and before it
    touches the device: any number of inputs but three ends in
    "eval_lin_op: Three inputs required!", three inputs with fewer than three
    outputs in the exception about the outputs. *)
Theorem EvalLinOp_checks_counts :
  forall (nlhs : Z) (prhs : list (mxArray T)) (st : MexState),
    let st1 := MkMexState (current_gpu_device st) (host st)
                          (trace st ++ [EvResetConstMem]) in
    (List.length prhs <> 3%nat ->
     EvalLinOp nlhs prhs st
     = (Thrown (MkException "eval_lin_op: Three inputs required!"), st1))
    /\ (List.length prhs = 3%nat -> (nlhs < 3)%Z ->
        EvalLinOp nlhs prhs st
        = (Thrown (MkException
                     "eval_lin_op: At least three outputs (result, rowsum, colsum) required."),
           st1)).
Proof.
  intros nlhs prhs st st1. split.
  - intro Hl. unfold EvalLinOp. unfold bind at 1. unfold ResetConstMem, emit.
    destruct (Nat.eqb_spec (List.length prhs) 3); [contradiction|]. reflexivity.
  - intros Hl Hn. unfold EvalLinOp. unfold bind at 1. unfold ResetConstMem, emit.
    rewrite Hl. cbn [Nat.eqb negb].
    destruct (Z.ltb_spec nlhs 3); [reflexivity | lia].
Qed.
End ArgumentChecks.

Section Frame_runs.
Import Solver Run Mex.

Lemma Solve_iterates_backend_witness :
  exists out k,
    Solve Scripted.silent Scripted.quiet = Some out
    /\ backend_ (solver_after out)
       = Nat.iter k (PerformIteration (problem_ Scripted.silent))
                  (backend_ Scripted.silent)
    /\ (k <= 2)%nat.
Proof.
  destruct (Solve Scripted.silent Scripted.quiet) as [out|] eqn:E;
    [|vm_compute in E; discriminate E].
  destruct (@Solve_iterates_backend Q _ _ Scripted.silent Scripted.quiet out E)
    as (k & Hb & Hk & _).
  exists out, k. split; [reflexivity|]. split; [exact Hb | exact Hk].
Defined.

Lemma Solve_keeps_problem_and_options_witness :
  solve_dual_problem (opts_ Scripted.converging) = false
  /\ exists out,
      Solve Scripted.converging Scripted.quiet = Some out
      /\ problem_ (solver_after out) = problem_ Scripted.converging
      /\ opts_ (solver_after out) = opts_ Scripted.converging.
Proof.
  split; [reflexivity|].
  destruct (Solve Scripted.converging Scripted.quiet) as [out|] eqn:E;
    [|vm_compute in E; discriminate E].
  destruct (@Solve_keeps_problem_and_options
              Q _ _ Scripted.converging Scripted.quiet out E) as (_ & _ & F).
  exists out. split; [reflexivity|]. exact (F eq_refl).
Defined.

Lemma EvalProx_rejects_matrix_witness :
  EvalProx (T := Q) 1
    [mxDoubleMatrix 1 1 [3%Q]; mxDoubleMatrix 3 2 [1%Q; 2%Q; 3%Q; 4%Q; 5%Q; 6%Q];
     mxDoubleMatrix 1 1 [1%Q]; mxDoubleMatrix 3 1 [1%Q; 1%Q; 1%Q]]
    (Scripted.state0 Scripted.quiet)
  = (Thrown (MkException "Input to prox should be a vector!"),
     selected (Scripted.state0 Scripted.quiet)).
Proof.
  apply (@EvalProx_rejects_matrix
           Q _ _ 1%Z _ (mxDoubleMatrix 3 2 [1%Q; 2%Q; 3%Q; 4%Q; 5%Q; 6%Q]) _);
    [apply le_n | discriminate | reflexivity | reflexivity | discriminate].
Defined.

Lemma EvalLinOp_checks_counts_witness :
  EvalLinOp (T := Q) 3 [] (Scripted.state0 Scripted.quiet)
  = (Thrown (MkException "eval_lin_op: Three inputs required!"),
     MkMexState 0 Scripted.quiet [EvResetConstMem]).
Proof.
  apply (proj1 (@EvalLinOp_checks_counts Q _ _ 3%Z []
                                         (Scripted.state0 Scripted.quiet))).
  discriminate.
Defined.
End Frame_runs.
